(** * BloomFilter: a shallow embedding of [bloom_filter/bloomfilter.py]

    The Python class [BloomFilter] keeps a bit array and two derived
    parameters ([filter_size], [hash_count]); items are hashed once with
    [mmh3.hash64] and the two 64-bit halves drive a double-hashing loop.

    Conventions of the embedding:
    - Python [int] is [Z] (unbounded); [%] is [Z.modulo], which has the
      sign of the divisor exactly like Python's, and raises
      [ZeroDivisionError] on a zero divisor;
    - Python [float] is [pyfloat]: a finite value, an infinity or NaN.  An
      arithmetic result is the exact real result passed through the
      rounding [fl] of the platform, and becomes an infinity (or an
      [OverflowError], where Python raises one) beyond the largest
      binary64 value.  The rounding and the two functions of the C
      library, [log] and [pow], are fields of a [Platform]; what is proved
      holds for every platform that is [sound]: monotone rounding that
      keeps small integers and has the usual relative error, and library
      functions with a relative error bound;
    - Python [str] is [string], read as a sequence of code points below
      256; [str.lower] is the Unicode lower-casing restricted to them;
    - the [bitarray] is a [list bool] indexed with Python's rules (negative
      indices count from the end, anything else raises [IndexError]);
    - [mmh3.hash64] is an external capability: a section variable;
    - an operation ends by returning, by an exception that propagates, or
      by [logger.log(str(e)); sys.exit(1)]. *)

From Stdlib Require Import ZArith List String Ascii Bool Lia.
From Stdlib Require Import DecimalString.
From Stdlib Require Import Reals Lra.
From stdpp Require Import list.

Import ListNotations.
Local Open Scope Z_scope.

(** ** Python values, exceptions and outcomes *)

Inductive exn : Type :=
| AttributeError
| TypeError
| ValueError
| ZeroDivisionError
| IndexError
| OverflowError
| MemoryError
| RuntimeError
| HashError.

(** The values an item can be: text, an integer, a boolean, [None], or an
    object of some other class, of which only [__str__] matters here: it
    returns a text or raises. *)
Inductive pyobj : Type :=
| PyStr (s : string)
| PyInt (z : Z)
| PyBool (b : bool)
| PyNone
| PyObject (text : exn + string).

(** [Returned a]: normal completion.  [Raised e]: exception [e] leaves the
    function.  [SysExit e]: an [except Exception as e] handler logged [e]
    and called [sys.exit(1)]; [SystemExit] is not an [Exception], so no
    handler of this program catches it again. *)
Inductive outcome (A : Type) : Type :=
| Returned (a : A)
| Raised (e : exn)
| SysExit (logged : exn).

Arguments Returned {A} a.
Arguments Raised {A} e.
Arguments SysExit {A} logged.

Definition obind {A B : Type} (o : outcome A) (k : A -> outcome B) : outcome B :=
  match o with
  | Returned a => k a
  | Raised e => Raised e
  | SysExit e => SysExit e
  end.

(** [try: ... except Exception as e: logger.log(str(e)); sys.exit(1)] *)
Definition catch_exit {A : Type} (o : outcome A) : outcome A :=
  match o with
  | Raised e => SysExit e
  | _ => o
  end.

Declare Scope outcome_scope.
Delimit Scope outcome_scope with outcome.
Notation "'do' x <- c1 ; c2" := (obind c1 (fun x => c2))
  (at level 10, x name, c1 at level 100, c2 at level 200) : outcome_scope.

(** ** Builtins used by the class *)

(** [sys.get_int_max_str_digits()], the default of CPython 3.11 *)
Definition int_max_str_digits : Z := 4300.

(** [str(item)].  An integer of more than [int_max_str_digits] digits is a
    [ValueError]; an object answers with its [__str__]. *)
Definition str (item : pyobj) : outcome string :=
  match item with
  | PyStr s => Returned s
  | PyInt z =>
      if 10 ^ int_max_str_digits <=? Z.abs z then Raised ValueError
      else Returned (NilZero.string_of_int (Z.to_int z))
  | PyBool true => Returned "True"%string
  | PyBool false => Returned "False"%string
  | PyNone => Returned "None"%string
  | PyObject (inl e) => Raised e
  | PyObject (inr s) => Returned s
  end.

Definition lower_char (c : ascii) : ascii :=
  let n := N_of_ascii c in
  if ((65 <=? n) && (n <=? 90) || (192 <=? n) && (n <=? 214)
      || (216 <=? n) && (n <=? 222))%N
  then ascii_of_N (n + 32)
  else c.

Fixpoint lower (s : string) : string :=
  match s with
  | EmptyString => EmptyString
  | String c s' => String (lower_char c) (lower s')
  end.

(** [item.lower()]: only [str] has the method among the modelled values. *)
Definition method_lower (item : pyobj) : outcome pyobj :=
  match item with
  | PyStr s => Returned (PyStr (lower s))
  | _ => Raised AttributeError
  end.

(** [a % b] on integers *)
Definition py_mod (a b : Z) : outcome Z :=
  if b =? 0 then Raised ZeroDivisionError else Returned (a mod b).

(** Python index normalisation for a sequence of length [len]. *)
Definition py_index (len : nat) (i : Z) : option nat :=
  if (0 <=? i) && (i <? Z.of_nat len) then Some (Z.to_nat i)
  else if (- Z.of_nat len <=? i) && (i <? 0) then Some (Z.to_nat (Z.of_nat len + i))
  else None.

(** ** Floating point *)

Inductive pyfloat : Type :=
| Finite (x : R)
| Infinity (negative : bool)
| NaN.

(** The largest finite binary64 value, [2^1024 - 2^971]. *)
Definition fmax : R := IZR (2 ^ 1024 - 2 ^ 971).

(** What the machine and the C library contribute. *)
Record Platform : Type := mkPlatform {
  (** rounding of an exact result to the nearest binary64 value, the
      exponent not bounded above *)
  fl : R -> R;
  (** [log] of the C library on a positive finite argument *)
  libm_log : R -> R;
  (** [pow(2.0, y)] of the C library on a finite argument *)
  libm_pow2 : R -> R;
  (** [sys.maxsize], the largest index *)
  maxsize : Z;
  (** the longest bit array the process can allocate *)
  max_bits : Z
}.

Definition is_negative (x : R) : bool := if Rlt_dec x 0 then true else false.

Definition is_zero (x : R) : bool := if Req_dec_T x 0 then true else false.

Definition overflows (x : R) : bool := if Rlt_dec fmax (Rabs x) then true else false.

(** [math.log(x)]: a [ValueError] (math domain error) unless [0 < x]. *)
Definition math_log (plat : Platform) (x : pyfloat) : outcome pyfloat :=
  match x with
  | Finite x =>
      if Rlt_dec 0 x then Returned (Finite (libm_log plat x)) else Raised ValueError
  | Infinity false => Returned (Infinity false)
  | Infinity true => Raised ValueError
  | NaN => Returned NaN
  end.

(** The rounded result of an operation whose exact result is [x]. *)
Definition finish (plat : Platform) (x : R) : pyfloat :=
  let y := fl plat x in
  if overflows y then Infinity (is_negative y) else Finite y.

(** [a * b] on floats *)
Definition float_mul (plat : Platform) (a b : pyfloat) : pyfloat :=
  match a, b with
  | NaN, _ | _, NaN => NaN
  | Finite x, Finite y => finish plat (x * y)
  | Infinity s, Finite y | Finite y, Infinity s =>
      if is_zero y then NaN else Infinity (xorb s (is_negative y))
  | Infinity s, Infinity t => Infinity (xorb s t)
  end.

(** [a / b] on floats: a zero divisor is a [ZeroDivisionError]. *)
Definition float_truediv (plat : Platform) (a b : pyfloat) : outcome pyfloat :=
  match a, b with
  | _, Finite y =>
      if is_zero y then Raised ZeroDivisionError
      else match a with
           | Finite x => Returned (finish plat (x / y))
           | Infinity s => Returned (Infinity (xorb s (is_negative y)))
           | NaN => Returned NaN
           end
  | NaN, _ | _, NaN => Returned NaN
  | Finite _, Infinity _ => Returned (Finite 0)
  | Infinity _, Infinity _ => Returned NaN
  end.

(** [pow(2, y)]: a result out of range is an [OverflowError]. *)
Definition float_pow2 (plat : Platform) (y : pyfloat) : outcome pyfloat :=
  match y with
  | Finite y =>
      if overflows (libm_pow2 plat y) then Raised OverflowError
      else Returned (Finite (libm_pow2 plat y))
  | Infinity false => Returned (Infinity false)
  | Infinity true => Returned (Finite 0)
  | NaN => Returned NaN
  end.

(** The conversion of an [int] operand of a float operation. *)
Definition int_to_float (plat : Platform) (n : Z) : outcome pyfloat :=
  if overflows (fl plat (IZR n)) then Raised OverflowError
  else Returned (Finite (fl plat (IZR n))).

(** [a / b] on two integers (true division): the quotient rounded once. *)
Definition int_truediv (plat : Platform) (a b : Z) : outcome pyfloat :=
  if b =? 0 then Raised ZeroDivisionError
  else if overflows (fl plat (IZR a / IZR b)) then Raised OverflowError
  else Returned (Finite (fl plat (IZR a / IZR b))).

(** [math.ceil(x)] *)
Definition math_ceil (x : pyfloat) : outcome Z :=
  match x with
  | Finite x => Returned (Zceil x)
  | Infinity _ => Raised OverflowError
  | NaN => Raised ValueError
  end.

(** The nearest integer, ties to the even one. *)
Definition py_round (x : R) : Z :=
  let f := Zfloor x in
  let d := (x - IZR f)%R in
  if Rlt_dec d (1 / 2) then f
  else if Rlt_dec (1 / 2) d then f + 1
  else if Z.even f then f else f + 1.

(** [round(x)] with one argument *)
Definition builtin_round (x : pyfloat) : outcome Z :=
  match x with
  | Finite x => Returned (py_round x)
  | Infinity _ => Raised OverflowError
  | NaN => Raised ValueError
  end.

(** ** The filter object *)

Record BloomFilter : Type := mkBloomFilter {
  items_count : Z;
  probability : pyfloat;
  case_sensitive : bool;
  counter : Z;
  delete_threshold : bool;
  filter_size : Z;
  hash_count : Z;
  bloom_bitarray : list bool
}.

Definition with_bits (bits : list bool) (self : BloomFilter) : BloomFilter :=
  mkBloomFilter (items_count self) (probability self) (case_sensitive self)
    (counter self) (delete_threshold self) (filter_size self)
    (hash_count self) bits.

Definition with_counter (c : Z) (self : BloomFilter) : BloomFilter :=
  mkBloomFilter (items_count self) (probability self) (case_sensitive self)
    c (delete_threshold self) (filter_size self)
    (hash_count self) (bloom_bitarray self).

(** ** Methods as state transformers

    A method body runs on [self]; whatever it mutated before an exception
    stays mutated, so the state is returned next to every outcome. *)

Definition M (A : Type) : Type := BloomFilter -> outcome A * BloomFilter.

Definition ret {A : Type} (a : A) : M A := fun self => (Returned a, self).

Definition bind {A B : Type} (m : M A) (k : A -> M B) : M B :=
  fun self =>
    match m self with
    | (Returned a, self') => k a self'
    | (Raised e, self') => (Raised e, self')
    | (SysExit e, self') => (SysExit e, self')
    end.

Definition lift {A : Type} (o : outcome A) : M A := fun self => (o, self).

Definition attr {A : Type} (field : BloomFilter -> A) : M A :=
  fun self => (Returned (field self), self).

Definition try_except {A : Type} (m : M A) : M A :=
  fun self => let (o, self') := m self in (catch_exit o, self').

Declare Scope method_scope.
Delimit Scope method_scope with method.
Notation "'do' x <- c1 ; c2" := (bind c1 (fun x => c2))
  (at level 10, x name, c1 at level 100, c2 at level 200) : method_scope.
Notation "'run' c1 ; c2" := (bind c1 (fun _ => c2))
  (at level 10, c1 at level 100, c2 at level 200) : method_scope.

(** [self.bloom_bitarray[position] = 1] *)
Definition bitarray_setitem (position : Z) (v : bool) : M unit :=
  fun self =>
    match py_index (length (bloom_bitarray self)) position with
    | Some i => (Returned tt, with_bits (<[i := v]> (bloom_bitarray self)) self)
    | None => (Raised IndexError, self)
    end.

(** [self.bloom_bitarray[position]] *)
Definition bitarray_getitem (position : Z) : M bool :=
  fun self =>
    match py_index (length (bloom_bitarray self)) position with
    | Some i =>
        match bloom_bitarray self !! i with
        | Some b => (Returned b, self)
        | None => (Raised IndexError, self)
        end
    | None => (Raised IndexError, self)
    end.

(** [self.counter += 1] *)
Definition incr_counter : M unit :=
  fun self => (Returned tt, with_counter (counter self + 1) self).

Section Filter.

(** [mmh3.hash64] on a string: two signed 64-bit integers, or [None] when
    the primitive raises (for instance on text it cannot encode). *)
Variable mmh3_hash64 : string -> option (Z * Z).

(** [mmh3.hash64(item)]: anything that is not text is a [TypeError]. *)
Definition hash64 (item : pyobj) : outcome (Z * Z) :=
  match item with
  | PyStr s =>
      match mmh3_hash64 s with
      | Some hash_vals => Returned hash_vals
      | None => Raised HashError
      end
  | _ => Raised TypeError
  end.

Definition get_hash (item : pyobj) (case_sensitive : bool) : outcome (Z * Z) :=
  catch_exit
    (do item <- (if case_sensitive then method_lower item else Returned item);
     hash64 item)%outcome.

(** The body of [for i in range(self.hash_count)] in [add], [n] rounds left. *)
Fixpoint add_loop (n : nat) (current_hash hash_val2 : Z) : M unit :=
  match n with
  | O => ret tt
  | S n' =>
      (do size <- attr filter_size;
       do position <- lift (py_mod current_hash size);
       run bitarray_setitem position true;
       add_loop n' (current_hash + hash_val2) hash_val2)%method
  end.

(** [str(item)] is evaluated as an argument of the call of [get_hash],
    before the [try]: what it raises leaves [add]. *)
Definition add (item : pyobj) : M unit :=
  (do cs <- attr case_sensitive;
   do text <- lift (str item);
   do hash_vals <- lift (get_hash (PyStr text) cs);
   try_except
     (do rounds <- attr hash_count;
      run add_loop (Z.to_nat rounds) (fst hash_vals) (snd hash_vals);
      incr_counter))%method.

(** [for item in items: self.add(item)] *)
Fixpoint bulk_add_loop (items : list pyobj) : M unit :=
  match items with
  | [] => ret tt
  | item :: rest => (run add item; bulk_add_loop rest)%method
  end.

Definition bulk_add (items : list pyobj) : M unit :=
  try_except (bulk_add_loop items).

(** The body of the loop of [contain]: [return False] leaves at once. *)
Fixpoint contain_loop (n : nat) (current_hash hash_val2 : Z) : M bool :=
  match n with
  | O => ret true
  | S n' =>
      (do size <- attr filter_size;
       do position <- lift (py_mod current_hash size);
       do bit <- bitarray_getitem position;
       if negb bit then ret false
       else contain_loop n' (current_hash + hash_val2) hash_val2)%method
  end.

Definition contain (item : pyobj) : M bool :=
  (do cs <- attr case_sensitive;
   do hash_vals <- lift (get_hash item cs);
   try_except
     (do rounds <- attr hash_count;
      contain_loop (Z.to_nat rounds) (fst hash_vals) (snd hash_vals)))%method.

End Filter.

(** ** Capacity planning and construction *)

(** [ceil((items * log(prob)) / log(1 / pow(2, log(2))))], the operands in
    the order Python evaluates them; [items] becomes a float when it is
    multiplied. *)
Definition get_filter_size (plat : Platform) (items : Z) (prob : pyfloat)
  : outcome Z :=
  catch_exit
    (do log_prob <- math_log plat prob;
     do items_float <- int_to_float plat items;
     do log_2 <- math_log plat (Finite 2);
     do power <- float_pow2 plat log_2;
     do inverse <- float_truediv plat (Finite 1) power;
     do denom <- math_log plat inverse;
     do size <- float_truediv plat (float_mul plat items_float log_prob) denom;
     math_ceil size)%outcome.

(** [round((size / items) * log(2))] *)
Definition get_hash_count (plat : Platform) (items size : Z) : outcome Z :=
  catch_exit
    (do ratio <- int_truediv plat size items;
     do log_2 <- math_log plat (Finite 2);
     builtin_round (float_mul plat ratio log_2))%outcome.

(** [bitarray(n)]: a length that is no index is an [OverflowError], a
    negative one a [ValueError], one that cannot be allocated a
    [MemoryError]. *)
Definition bitarray (plat : Platform) (n : Z) : outcome (list bool) :=
  if (n <? - maxsize plat - 1) || (maxsize plat <? n) then Raised OverflowError
  else if n <? 0 then Raised ValueError
  else if max_bits plat <? n then Raised MemoryError
  else Returned (repeat false (Z.to_nat n)).

Definition setall (v : bool) (bits : list bool) : list bool :=
  repeat v (length bits).

(** The constructor has no handler of its own: what [bitarray] raises
    reaches the caller as it is. *)
Definition __init__ (plat : Platform) (items : Z) (probability : pyfloat)
  (case : bool) : outcome BloomFilter :=
  (do size <- get_filter_size plat items probability;
   do rounds <- get_hash_count plat items size;
   do bits <- bitarray plat size;
   Returned (mkBloomFilter items probability case 0 false size rounds
               (setall false bits)))%outcome.

(** The two constants of the planning functions: [log(2)] and
    [log(1 / pow(2, log(2)))]. *)
Definition log_2 (plat : Platform) : R := libm_log plat 2.

Definition denominator (plat : Platform) : R :=
  libm_log plat (fl plat (1 / libm_pow2 plat (log_2 plat))).

(** What every platform satisfies: rounding to nearest is monotone, keeps
    the integers up to [2^53] and is within [2^-53] of a result of normal
    size; the logarithm and the powers of 2 with an exponent from 0 to 1
    are within [2^-40] of the exact ones; an empty bit array can be
    allocated, and none longer than the largest index. *)
Record sound (plat : Platform) : Prop := mkSound {
  fl_monotone : forall x y : R, (x <= y)%R -> (fl plat x <= fl plat y)%R;
  fl_integer : forall k : Z, Z.abs k <= 2 ^ 53 -> fl plat (IZR k) = IZR k;
  fl_error : forall x : R,
      (/ 2 ^ 1022 <= Rabs x)%R ->
      (Rabs (fl plat x - x) <= Rabs x / 2 ^ 53)%R;
  log_error : forall x : R,
      (0 < x)%R ->
      (Rabs (libm_log plat x - ln x) <= Rabs (ln x) / 2 ^ 40)%R;
  pow2_error : forall y : R,
      (0 <= y <= 1)%R ->
      (Rabs (libm_pow2 plat y - Rpower 2 y) <= Rpower 2 y / 2 ^ 40)%R;
  max_bits_range : 0 <= max_bits plat <= maxsize plat
}.

(** Exact arithmetic is one such platform; its indices have 64 bits and
    it can hold [2^40] bits. *)
Definition exact : Platform :=
  mkPlatform (fun x => x) ln (Rpower 2) (2 ^ 63 - 1) (2 ^ 40).

(** ** A stand-in hash for running the methods on concrete inputs

    The sum of the code points and the length; text containing the code
    point 255 is refused, as the primitive refuses what it cannot encode. *)
Fixpoint code_sum (s : string) : Z :=
  match s with
  | EmptyString => 0
  | String c s' => Z.of_N (N_of_ascii c) + code_sum s'
  end.

Fixpoint encodable (s : string) : bool :=
  match s with
  | EmptyString => true
  | String c s' => negb (N_of_ascii c =? 255)%N && encodable s'
  end.

Definition stub_hash64 (s : string) : option (Z * Z) :=
  if encodable s
  then Some (code_sum s - 1000, Z.of_nat (String.length s) + 1)
  else None.

(** An empty filter with explicit parameters, as the constructor leaves it
    once [size] and [rounds] are computed. *)
Definition fresh (case : bool) (size rounds : Z) : BloomFilter :=
  mkBloomFilter 1 (Finite (1 / 2)) case 0 false size rounds
    (repeat false (Z.to_nat size)).

(** A state whose bit array is shorter than [filter_size]: with 13 as the
    size and the stand-in hash the third position of "foo", 8, is not an
    index of it. *)
Definition short_array : BloomFilter :=
  mkBloomFilter 1 (Finite (1 / 2)) false 0 false 13 3
    [true; false; false; false; false; false; false; false].

(** ** What the loops compute *)

(** The [i]-th position of the double hashing, as an index in the list. *)
Definition probe (h1 h2 size : Z) (i : nat) : nat :=
  Z.to_nat ((h1 + Z.of_nat i * h2) mod size).

(** Is [j] one of the first [n] positions? *)
Definition hit (h1 h2 size : Z) (n j : nat) : bool :=
  existsb (fun i => Nat.eqb (probe h1 h2 size i) j) (seq 0 n).

(** The bit read at the [i]-th position. *)
Definition bit_at (self : BloomFilter) (h1 h2 : Z) (i : nat) : bool :=
  match bloom_bitarray self !! probe h1 h2 (filter_size self) i with
  | Some b => b
  | None => false
  end.

(** The representation invariant of a constructed filter. *)
Definition wf (self : BloomFilter) : Prop :=
  filter_size self = Z.of_nat (length (bloom_bitarray self))
  /\ (filter_size self = 0 -> hash_count self <= 0).

(** The bit array after [n] rounds of the loop of [add] started at [c]. *)
Fixpoint mark (n : nat) (c h2 size : Z) (bits : list bool) : list bool :=
  match n with
  | O => bits
  | S n' => mark n' (c + h2) h2 size (<[Z.to_nat (c mod size) := true]> bits)
  end.

(** The state [add] leaves when the hash pair is [(h1, h2)]. *)
Definition added (h1 h2 : Z) (self : BloomFilter) : BloomFilter :=
  with_counter (counter self + 1)
    (with_bits (mark (Z.to_nat (hash_count self)) h1 h2 (filter_size self)
                  (bloom_bitarray self)) self).

(** Insert once per item, in sequence order, as a caller of [add] would:
    each call runs on the state the previous one left, and nothing is
    called any more once a call did not return. *)
Definition call_add (mmh3_hash64 : string -> option (Z * Z))
  (st : outcome unit * BloomFilter) (item : pyobj) : outcome unit * BloomFilter :=
  match fst st with
  | Returned _ => add mmh3_hash64 item (snd st)
  | _ => st
  end.

Definition add_each (mmh3_hash64 : string -> option (Z * Z))
  (items : list pyobj) (self : BloomFilter) : outcome unit * BloomFilter :=
  fold_left (call_add mmh3_hash64) items (Returned tt, self).

(** [self'] has the parameters of [self] and at least its 1-bits. *)
Definition extends (self self' : BloomFilter) : Prop :=
  filter_size self' = filter_size self
  /\ hash_count self' = hash_count self
  /\ case_sensitive self' = case_sensitive self
  /\ length (bloom_bitarray self') = length (bloom_bitarray self)
  /\ forall j, bloom_bitarray self !! j = Some true ->
               bloom_bitarray self' !! j = Some true.

(** The number of 1-bits of a bit array. *)
Fixpoint ones (bits : list bool) : nat :=
  match bits with
  | [] => 0
  | b :: rest => ((if b then 1 else 0) + ones rest)%nat
  end.

(** [j] is a position of one of [items]: some round of the double hashing
    of some item, with the parameters of [self], lands on [j]. *)
Definition covered (mmh3_hash64 : string -> option (Z * Z))
  (items : list pyobj) (self : BloomFilter) (j : nat) : Prop :=
  exists item text h1 h2 i,
    In item items
    /\ str item = Returned text
    /\ get_hash mmh3_hash64 (PyStr text) (case_sensitive self)
       = Returned (h1, h2)
    /\ (i < Z.to_nat (hash_count self))%nat
    /\ probe h1 h2 (filter_size self) i = j.

(** ** Proof automation *)

(** Case analysis on the sign of every argument of [Rabs]. *)
Ltac split_abs :=
  unfold Rabs in *;
  repeat match goal with
         | |- context [Rcase_abs ?x] => destruct (Rcase_abs x)
         | H : context [Rcase_abs ?x] |- _ => destruct (Rcase_abs x)
         end.

(** * Properties *)

(** ** Arithmetic of the positions *)

Lemma py_mod_pos (c size : Z) : size <> 0 -> py_mod c size = Returned (c mod size).
Proof.
  intros Hs. unfold py_mod. destruct (Z.eqb_spec size 0); [contradiction | reflexivity].
Qed.

Lemma mod_in_range (c size : Z) : 0 < size -> 0 <= c mod size < size.
Proof. intros Hs. apply Z.mod_pos_bound. exact Hs. Qed.

Lemma py_index_in_range (len : nat) (i : Z) :
  0 <= i < Z.of_nat len -> py_index len i = Some (Z.to_nat i).
Proof.
  intros [Hlo Hhi]. unfold py_index.
  destruct (Z.leb_spec 0 i); [| lia].
  destruct (Z.ltb_spec i (Z.of_nat len)); [reflexivity | lia].
Qed.

Lemma probe_lt (h1 h2 size : Z) (i : nat) :
  0 < size -> (probe h1 h2 size i < Z.to_nat size)%nat.
Proof.
  intros Hs. unfold probe.
  pose proof (mod_in_range (h1 + Z.of_nat i * h2) size Hs). lia.
Qed.

Lemma probe_shift (h1 h2 size : Z) (i : nat) :
  probe (h1 + h2) h2 size i = probe h1 h2 size (S i).
Proof. unfold probe. f_equal. f_equal. lia. Qed.

Lemma probe_0 (h1 h2 size : Z) : probe h1 h2 size 0 = Z.to_nat (h1 mod size).
Proof. unfold probe. f_equal. f_equal. lia. Qed.

Lemma hit_S (h1 h2 size : Z) (n j : nat) :
  hit h1 h2 size (S n) j
  = Nat.eqb (Z.to_nat (h1 mod size)) j || hit (h1 + h2) h2 size n j.
Proof.
  unfold hit. rewrite <- cons_seq. cbn [existsb]. rewrite probe_0. f_equal.
  rewrite <- seq_shift. induction (seq 0 n) as [| i l IH]; [reflexivity |].
  cbn [map existsb]. rewrite IH, probe_shift. reflexivity.
Qed.

Lemma hit_true (h1 h2 size : Z) (n j : nat) :
  hit h1 h2 size n j = true <-> exists i, (i < n)%nat /\ probe h1 h2 size i = j.
Proof.
  unfold hit. rewrite existsb_exists. split.
  - intros (i & Hin & Heq). apply in_seq in Hin. apply Nat.eqb_eq in Heq.
    exists i. split; [lia | exact Heq].
  - intros (i & Hlt & Heq). exists i. split.
    + apply in_seq. lia.
    + apply Nat.eqb_eq. exact Heq.
Qed.

(** ** The bit array written by the loop *)

Lemma mark_length (n : nat) : forall c h2 size bits,
  length (mark n c h2 size bits) = length bits.
Proof.
  induction n as [| n IH]; intros c h2 size bits; cbn [mark]; [reflexivity |].
  rewrite IH. apply length_insert.
Qed.

Lemma mark_lookup (n : nat) : forall c h2 size bits j,
  mark n c h2 size bits !! j
  = (fun b => b || hit c h2 size n j) <$> (bits !! j).
Proof.
  induction n as [| n IH]; intros c h2 size bits j; cbn [mark].
  - destruct (bits !! j) as [b |]; cbn; [| reflexivity].
    rewrite orb_false_r. reflexivity.
  - rewrite IH, hit_S.
    destruct (Nat.eqb_spec (Z.to_nat (c mod size)) j) as [-> | Hne].
    + destruct (bits !! j) as [b |] eqn:Hj.
      * rewrite list_lookup_insert_eq by (eapply lookup_lt_Some; exact Hj).
        cbn. rewrite orb_true_r. reflexivity.
      * rewrite list_insert_ge by (apply lookup_ge_None; exact Hj).
        rewrite Hj. reflexivity.
    + rewrite list_lookup_insert_ne by exact Hne.
      destruct (bits !! j); reflexivity.
Qed.

(** Marking the same positions again changes nothing. *)
Lemma mark_idempotent (n : nat) (c h2 size : Z) (bits : list bool) :
  mark n c h2 size (mark n c h2 size bits) = mark n c h2 size bits.
Proof.
  apply list_eq. intros j. rewrite !mark_lookup.
  destruct (bits !! j) as [b |]; cbn; [| reflexivity].
  f_equal. destruct b, (hit c h2 size n j); reflexivity.
Qed.

(** A bit that is set stays set. *)
Lemma mark_monotone (n : nat) (c h2 size : Z) (bits : list bool) (j : nat) :
  bits !! j = Some true -> mark n c h2 size bits !! j = Some true.
Proof. intros Hj. rewrite mark_lookup, Hj. reflexivity. Qed.

(** ** The loops on a well-formed filter *)

Lemma forallb_pointwise {A : Type} (f g : A -> bool) (l : list A) :
  (forall x, f x = g x) -> forallb f l = forallb g l.
Proof.
  intros Hfg. induction l as [| x l IH]; [reflexivity |].
  cbn [forallb]. rewrite IH, Hfg. reflexivity.
Qed.

Lemma forallb_seq_shift (f g : nat -> bool) (n : nat) :
  (forall i, f (S i) = g i) ->
  forallb f (seq 1 n) = forallb g (seq 0 n).
Proof.
  intros Hfg. rewrite <- seq_shift.
  induction (seq 0 n) as [| i l IH]; [reflexivity |].
  cbn [map forallb]. rewrite IH, Hfg. reflexivity.
Qed.

Lemma wf_cases (self : BloomFilter) :
  wf self ->
  (0 < filter_size self /\ filter_size self = Z.of_nat (length (bloom_bitarray self)))
  \/ Z.to_nat (hash_count self) = 0%nat.
Proof. intros [Hlen Hzero]. destruct (Z.eq_dec (filter_size self) 0); lia. Qed.

Lemma add_loop_spec (n : nat) : forall c h2 self,
  0 < filter_size self ->
  filter_size self = Z.of_nat (length (bloom_bitarray self)) ->
  add_loop n c h2 self
  = (Returned tt,
     with_bits (mark n c h2 (filter_size self) (bloom_bitarray self)) self).
Proof.
  induction n as [| n IH]; intros c h2 self Hpos Hlen.
  - destruct self; reflexivity.
  - cbn [add_loop mark]. unfold bind at 1, attr at 1. unfold bind at 1, lift at 1.
    rewrite py_mod_pos by lia. unfold bind at 1, bitarray_setitem at 1.
    rewrite py_index_in_range by (rewrite <- Hlen; apply mod_in_range; exact Hpos).
    rewrite IH.
    + destruct self; reflexivity.
    + destruct self; exact Hpos.
    + destruct self; cbn in *. rewrite length_insert. exact Hlen.
Qed.

Lemma contain_loop_spec (n : nat) : forall c h2 self,
  0 < filter_size self ->
  filter_size self = Z.of_nat (length (bloom_bitarray self)) ->
  contain_loop n c h2 self
  = (Returned (forallb (bit_at self c h2) (seq 0 n)), self).
Proof.
  induction n as [| n IH]; intros c h2 self Hpos Hlen.
  - reflexivity.
  - cbn [contain_loop]. unfold bind at 1, attr at 1. unfold bind at 1, lift at 1.
    rewrite py_mod_pos by lia. unfold bind at 1, bitarray_getitem at 1.
    pose proof (mod_in_range c (filter_size self) Hpos) as Hr.
    rewrite py_index_in_range by (rewrite <- Hlen; exact Hr).
    rewrite <- cons_seq. cbn [forallb].
    unfold bit_at at 1. rewrite probe_0.
    destruct (lookup_lt_is_Some_2 (bloom_bitarray self) (Z.to_nat (c mod filter_size self)))
      as [b Hb]; [lia |].
    rewrite Hb. destruct b; cbn [negb andb].
    + rewrite IH by assumption. f_equal. f_equal.
      symmetry. apply forallb_seq_shift.
      intros i. unfold bit_at. rewrite probe_shift. reflexivity.
    + reflexivity.
Qed.

(** ** Monotonicity of every step, whatever its outcome *)

Lemma extends_refl (self : BloomFilter) : extends self self.
Proof. unfold extends. auto. Qed.

Lemma extends_trans (s1 s2 s3 : BloomFilter) :
  extends s1 s2 -> extends s2 s3 -> extends s1 s3.
Proof.
  unfold extends. intros (? & ? & ? & ? & H12) (? & ? & ? & ? & H23).
  repeat split; try congruence. intros j Hj. apply H23, H12, Hj.
Qed.

Lemma insert_true_monotone (bits : list bool) (i j : nat) :
  bits !! j = Some true -> <[i := true]> bits !! j = Some true.
Proof.
  intros Hj. destruct (Nat.eq_dec i j) as [-> | Hne].
  - apply list_lookup_insert_eq. eapply lookup_lt_Some. exact Hj.
  - rewrite list_lookup_insert_ne by exact Hne. exact Hj.
Qed.

Lemma setitem_extends (position : Z) (self : BloomFilter) :
  extends self (snd (bitarray_setitem position true self)).
Proof.
  unfold bitarray_setitem.
  destruct (py_index _ position) as [i |]; cbn [snd]; [| apply extends_refl].
  destruct self; unfold extends; cbn. repeat split; try reflexivity.
  - apply length_insert.
  - intros j. apply insert_true_monotone.
Qed.

Lemma add_loop_extends (n : nat) : forall c h2 self,
  extends self (snd (add_loop n c h2 self)).
Proof.
  induction n as [| n IH]; intros c h2 self; cbn [add_loop].
  - apply extends_refl.
  - unfold bind at 1, attr at 1. unfold bind at 1, lift at 1.
    destruct (py_mod c (filter_size self)) as [position | e | e];
      try apply extends_refl.
    unfold bind at 1.
    pose proof (setitem_extends position self) as Hset.
    destruct (bitarray_setitem position true self) as [[[] | e | e] self1];
      cbn [snd] in Hset; try exact Hset.
    eapply extends_trans; [exact Hset | apply IH].
Qed.

Lemma contain_loop_state (n : nat) : forall c h2 self,
  snd (contain_loop n c h2 self) = self.
Proof.
  induction n as [| n IH]; intros c h2 self; cbn [contain_loop].
  - reflexivity.
  - unfold bind at 1, attr at 1. unfold bind at 1, lift at 1.
    destruct (py_mod c (filter_size self)) as [position | e | e]; try reflexivity.
    unfold bind at 1, bitarray_getitem.
    destruct (py_index _ position) as [i |]; [| reflexivity].
    destruct (bloom_bitarray self !! i) as [[|] |]; cbn [negb]; try reflexivity.
    apply IH.
Qed.

Section Methods.

Variable mmh3_hash64 : string -> option (Z * Z).

Lemma get_hash_str (s : string) (cs : bool) :
  get_hash mmh3_hash64 (PyStr s) cs
  = match mmh3_hash64 (if cs then lower s else s) with
    | Some hash_vals => Returned hash_vals
    | None => SysExit HashError
    end.
Proof.
  unfold get_hash. destruct cs; cbn; destruct (mmh3_hash64 _); reflexivity.
Qed.

Lemma get_hash_not_str (item : pyobj) (cs : bool) :
  (forall s, item <> PyStr s) ->
  get_hash mmh3_hash64 item cs
  = SysExit (if cs then AttributeError else TypeError).
Proof.
  intros Hns. unfold get_hash.
  destruct item as [s | z | b | | t]; [destruct (Hns s); reflexivity | | | |];
    destruct cs; reflexivity.
Qed.

Lemma get_hash_never_raises (item : pyobj) (cs : bool) (e : exn) :
  get_hash mmh3_hash64 item cs <> Raised e.
Proof.
  unfold get_hash.
  destruct (obind _ _); cbn; discriminate.
Qed.

Lemma add_extends (item : pyobj) (self : BloomFilter) :
  extends self (snd (add mmh3_hash64 item self)).
Proof.
  unfold add. unfold bind at 1, attr at 1. unfold bind at 1, lift at 1.
  destruct (str item) as [text | e | e]; try apply extends_refl.
  unfold bind at 1, lift at 1.
  destruct (get_hash _ _ _) as [[h1 h2] | e | e]; try apply extends_refl.
  unfold try_except, bind at 1, attr at 1. cbn [fst snd].
  pose proof (add_loop_extends (Z.to_nat (hash_count self)) h1 h2 self) as Hloop.
  unfold bind.
  destruct (add_loop _ h1 h2 self) as [[[] | e | e] self1];
    cbn [snd catch_exit] in *; exact Hloop.
Qed.

Lemma bulk_add_loop_extends (items : list pyobj) : forall self,
  extends self (snd (bulk_add_loop mmh3_hash64 items self)).
Proof.
  induction items as [| item rest IH]; intros self; cbn [bulk_add_loop].
  - apply extends_refl.
  - unfold bind. pose proof (add_extends item self) as Hadd.
    destruct (add mmh3_hash64 item self) as [[[] | e | e] self1];
      cbn [snd] in *; try exact Hadd.
    eapply extends_trans; [exact Hadd | apply IH].
Qed.

Lemma bulk_add_extends (items : list pyobj) (self : BloomFilter) :
  extends self (snd (bulk_add mmh3_hash64 items self)).
Proof.
  unfold bulk_add, try_except.
  pose proof (bulk_add_loop_extends items self) as Hloop.
  destruct (bulk_add_loop mmh3_hash64 items self) as [o self1]. exact Hloop.
Qed.

Lemma contain_state (item : pyobj) (self : BloomFilter) :
  snd (contain mmh3_hash64 item self) = self.
Proof.
  unfold contain. unfold bind at 1, attr at 1. unfold bind at 1, lift at 1.
  destruct (get_hash _ _ _) as [[h1 h2] | e | e]; try reflexivity.
  unfold try_except, bind, attr. cbn [fst snd].
  pose proof (contain_loop_state (Z.to_nat (hash_count self)) h1 h2 self) as Hst.
  destruct (contain_loop _ h1 h2 self) as [o self1]. exact Hst.
Qed.

End Methods.

(** ** The methods on a well-formed filter *)

Lemma extends_wf (self self' : BloomFilter) :
  extends self self' -> wf self -> wf self'.
Proof.
  unfold extends, wf. intros (Hs & Hh & _ & Hl & _) [Hlen Hzero].
  rewrite Hs, Hh, Hl. auto.
Qed.

Lemma added_extends (h1 h2 : Z) (self : BloomFilter) :
  extends self (added h1 h2 self).
Proof.
  unfold extends, added. destruct self; cbn. repeat split; try reflexivity.
  - apply mark_length.
  - intros j. apply mark_monotone.
Qed.

Lemma wf_added (h1 h2 : Z) (self : BloomFilter) :
  wf self -> wf (added h1 h2 self).
Proof. apply extends_wf, added_extends. Qed.

Lemma wf_fresh (case : bool) (size rounds : Z) :
  0 < size -> wf (fresh case size rounds).
Proof.
  intros Hs. unfold wf, fresh. cbn. rewrite repeat_length. split; lia.
Qed.

Section Specification.

Variable mmh3_hash64 : string -> option (Z * Z).

Lemma str_never_exits (item : pyobj) (e : exn) : str item <> SysExit e.
Proof.
  destruct item as [s | z | [|] | | [e' | s]]; cbn; try discriminate.
  destruct (_ <=? _); discriminate.
Qed.

Lemma add_spec (item : pyobj) (self : BloomFilter) (text : string) (h1 h2 : Z) :
  wf self ->
  str item = Returned text ->
  get_hash mmh3_hash64 (PyStr text) (case_sensitive self) = Returned (h1, h2) ->
  add mmh3_hash64 item self = (Returned tt, added h1 h2 self).
Proof.
  intros Hwf Hstr Hhash. unfold add. unfold bind at 1, attr at 1.
  unfold bind at 1, lift at 1. rewrite Hstr.
  unfold bind at 1, lift at 1. rewrite Hhash. cbn [fst snd].
  unfold try_except, bind at 1, attr at 1. unfold bind, added.
  destruct (wf_cases self Hwf) as [[Hpos Hlen] | Hzero].
  - rewrite add_loop_spec by assumption. destruct self; reflexivity.
  - rewrite Hzero. destruct self; reflexivity.
Qed.

Lemma add_hash_exit (item : pyobj) (self : BloomFilter) (text : string) (e : exn) :
  str item = Returned text ->
  get_hash mmh3_hash64 (PyStr text) (case_sensitive self) = SysExit e ->
  add mmh3_hash64 item self = (SysExit e, self).
Proof.
  intros Hstr Hhash. unfold add. unfold bind at 1, attr at 1.
  unfold bind at 1, lift at 1. rewrite Hstr.
  unfold bind at 1, lift at 1. rewrite Hhash. reflexivity.
Qed.

Lemma add_str_raises (item : pyobj) (self : BloomFilter) (e : exn) :
  str item = Raised e ->
  add mmh3_hash64 item self = (Raised e, self).
Proof.
  intros Hstr. unfold add. unfold bind at 1, attr at 1.
  unfold bind at 1, lift at 1. rewrite Hstr. reflexivity.
Qed.

(** On a well-formed filter [add] returns, or stops in the hash
    derivation, or lets out what [str(item)] raised; in the last two cases
    it touched nothing. *)
Lemma add_cases (item : pyobj) (self : BloomFilter) :
  wf self ->
  (exists text h1 h2,
      str item = Returned text
      /\ get_hash mmh3_hash64 (PyStr text) (case_sensitive self) = Returned (h1, h2)
      /\ add mmh3_hash64 item self = (Returned tt, added h1 h2 self))
  \/ (exists text e,
        str item = Returned text
        /\ get_hash mmh3_hash64 (PyStr text) (case_sensitive self) = SysExit e
        /\ add mmh3_hash64 item self = (SysExit e, self))
  \/ (exists e, str item = Raised e /\ add mmh3_hash64 item self = (Raised e, self)).
Proof.
  intros Hwf. destruct (str item) as [text | e | e] eqn:Hstr.
  - destruct (get_hash mmh3_hash64 (PyStr text) (case_sensitive self))
      as [[h1 h2] | e | e] eqn:Hhash.
    + left. exists text, h1, h2. repeat split; try assumption.
      eapply add_spec; eassumption.
    + destruct (get_hash_never_raises _ _ _ _ Hhash).
    + right. left. exists text, e. repeat split; try assumption.
      eapply add_hash_exit; eassumption.
  - right. right. exists e. split; [reflexivity | apply add_str_raises; exact Hstr].
  - destruct (str_never_exits _ _ Hstr).
Qed.

(** [add] lets out exactly what [str(item)] raises. *)
Lemma add_raises_iff (item : pyobj) (self : BloomFilter) (e : exn) :
  fst (add mmh3_hash64 item self) = Raised e <-> str item = Raised e.
Proof.
  split.
  - unfold add. unfold bind at 1, attr at 1. unfold bind at 1, lift at 1.
    destruct (str item) as [text | e' | e'] eqn:Hstr; cbn [fst]; try congruence.
    unfold bind at 1, lift at 1.
    destruct (get_hash _ _ _) as [[h1 h2] | e' | e'] eqn:Hhash; cbn [fst].
    + unfold try_except. destruct (bind _ _ self) as [[[] | e' | e'] self1];
        cbn; discriminate.
    + destruct (get_hash_never_raises _ _ _ _ Hhash).
    + discriminate.
  - intros Hstr. rewrite (add_str_raises item self e Hstr). reflexivity.
Qed.

(** When [add] does not return, the filter is as it was. *)
Lemma add_failure_state (item : pyobj) (self : BloomFilter) :
  wf self ->
  (forall u, fst (add mmh3_hash64 item self) <> Returned u) ->
  snd (add mmh3_hash64 item self) = self.
Proof.
  intros Hwf Hfail.
  destruct (add_cases item self Hwf)
    as [(text & h1 & h2 & _ & _ & Hadd) | [(text & e & _ & _ & Hadd) | (e & _ & Hadd)]];
    rewrite Hadd in *; cbn [fst snd] in *; [destruct (Hfail tt); reflexivity | | ];
    reflexivity.
Qed.

Lemma contain_spec (item : pyobj) (self : BloomFilter) (h1 h2 : Z) :
  wf self ->
  get_hash mmh3_hash64 item (case_sensitive self) = Returned (h1, h2) ->
  contain mmh3_hash64 item self
  = (Returned (forallb (bit_at self h1 h2) (seq 0 (Z.to_nat (hash_count self)))),
     self).
Proof.
  intros Hwf Hhash. unfold contain. unfold bind at 1, attr at 1.
  unfold bind at 1, lift at 1. rewrite Hhash. cbn [fst snd].
  unfold try_except, bind, attr.
  destruct (wf_cases self Hwf) as [[Hpos Hlen] | Hzero].
  - rewrite contain_loop_spec by assumption. reflexivity.
  - rewrite Hzero. reflexivity.
Qed.

Lemma contain_hash_exit (item : pyobj) (self : BloomFilter) (e : exn) :
  get_hash mmh3_hash64 item (case_sensitive self) = SysExit e ->
  contain mmh3_hash64 item self = (SysExit e, self).
Proof.
  intros Hhash. unfold contain. unfold bind at 1, attr at 1.
  unfold bind at 1, lift at 1. rewrite Hhash. reflexivity.
Qed.

(** The answer of [contain] reads the parameters and the bits only. *)
Lemma contain_same_bits (item : pyobj) (self self' : BloomFilter) :
  wf self ->
  extends self self' ->
  bloom_bitarray self' = bloom_bitarray self ->
  fst (contain mmh3_hash64 item self') = fst (contain mmh3_hash64 item self).
Proof.
  intros Hwf Hext Hbits. pose proof (extends_wf _ _ Hext Hwf) as Hwf'.
  destruct Hext as (Hs & Hh & Hc & _ & _).
  destruct (get_hash mmh3_hash64 item (case_sensitive self)) as [[h1 h2] | e | e]
    eqn:Hhash.
  - rewrite (contain_spec item self h1 h2 Hwf Hhash).
    rewrite (contain_spec item self' h1 h2 Hwf') by (rewrite Hc; exact Hhash).
    cbn [fst]. rewrite Hh. f_equal. apply forallb_pointwise. intros i.
    unfold bit_at. rewrite Hs, Hbits. reflexivity.
  - destruct (get_hash_never_raises _ _ _ _ Hhash).
  - rewrite (contain_hash_exit item self e Hhash).
    rewrite (contain_hash_exit item self' e) by (rewrite Hc; exact Hhash).
    reflexivity.
Qed.

(** After [add] every position of the item is set. *)
Lemma added_bit_at (h1 h2 : Z) (self : BloomFilter) (i : nat) :
  wf self ->
  (i < Z.to_nat (hash_count self))%nat ->
  bit_at (added h1 h2 self) h1 h2 i = true.
Proof.
  intros Hwf Hi. destruct (wf_cases self Hwf) as [[Hpos Hlen] | Hzero]; [| lia].
  unfold bit_at, added. destruct self as [n p cs k d size rounds bits]; cbn in *.
  rewrite mark_lookup.
  destruct (lookup_lt_is_Some_2 bits (probe h1 h2 size i)) as [b Hb].
  { pose proof (probe_lt h1 h2 size i Hpos). lia. }
  rewrite Hb. cbn.
  assert (Hhit : hit h1 h2 size (Z.to_nat rounds) (probe h1 h2 size i) = true).
  { apply hit_true. exists i. split; [exact Hi | reflexivity]. }
  rewrite Hhit. apply orb_true_r.
Qed.

(** Bits that are set for an item stay set in every later state. *)
Lemma bit_at_extends (h1 h2 : Z) (self self' : BloomFilter) (i : nat) :
  wf self -> 0 < filter_size self ->
  extends self self' ->
  bit_at self h1 h2 i = true -> bit_at self' h1 h2 i = true.
Proof.
  intros [Hlen _] Hpos (Hs & _ & _ & _ & Hmono) Hbit. unfold bit_at in *.
  rewrite Hs.
  destruct (bloom_bitarray self !! probe h1 h2 (filter_size self) i) as [[|] |] eqn:Hb;
    try discriminate.
  rewrite (Hmono _ Hb). reflexivity.
Qed.

End Specification.

(** ** Insertion then query *)

Section Membership.

Variable mmh3_hash64 : string -> option (Z * Z).

(** Whatever derives the hash pair of an inserted item is reported
    present, at once and after any further insertions that returned. *)
Lemma contain_after_add (item query : pyobj) (text : string) (items : list pyobj)
  (self self1 self2 : BloomFilter) :
  wf self ->
  str item = Returned text ->
  get_hash mmh3_hash64 query (case_sensitive self)
  = get_hash mmh3_hash64 (PyStr text) (case_sensitive self) ->
  add mmh3_hash64 item self = (Returned tt, self1) ->
  bulk_add_loop mmh3_hash64 items self1 = (Returned tt, self2) ->
  contain mmh3_hash64 query self1 = (Returned true, self1)
  /\ contain mmh3_hash64 query self2 = (Returned true, self2).
Proof.
  intros Hwf Hstr Hsame Hadd Hbulk.
  destruct (add_cases mmh3_hash64 item self Hwf)
    as [(text' & h1 & h2 & Hstr' & Hhash & Hadd')
       | [(text' & e & _ & _ & Hexit) | (e & _ & Hexit)]];
    try (rewrite Hexit in Hadd; discriminate).
  rewrite Hadd' in Hadd. injection Hadd as <-.
  rewrite Hstr in Hstr'. injection Hstr' as <-.
  rewrite Hhash in Hsame.
  pose proof (added_extends h1 h2 self) as Hext1.
  pose proof (bulk_add_loop_extends mmh3_hash64 items (added h1 h2 self)) as Hext2.
  rewrite Hbulk in Hext2. cbn [snd] in Hext2.
  pose proof (extends_wf _ _ Hext1 Hwf) as Hwf1.
  pose proof (extends_wf _ _ Hext2 Hwf1) as Hwf2.
  assert (Hall1 : forall i, (i < Z.to_nat (hash_count self))%nat ->
                            bit_at (added h1 h2 self) h1 h2 i = true).
  { intros i Hi. apply added_bit_at; assumption. }
  assert (Hrounds1 : hash_count (added h1 h2 self) = hash_count self)
    by (destruct self; reflexivity).
  assert (Hcase1 : case_sensitive (added h1 h2 self) = case_sensitive self)
    by (destruct self; reflexivity).
  split.
  - rewrite (contain_spec mmh3_hash64 query _ h1 h2 Hwf1)
      by (rewrite Hcase1; exact Hsame).
    f_equal. f_equal. apply forallb_forall. intros i Hin.
    apply in_seq in Hin. apply Hall1. rewrite Hrounds1 in Hin. lia.
  - destruct Hext2 as (Hs2 & Hh2 & Hc2 & Hl2 & Hmono2).
    rewrite (contain_spec mmh3_hash64 query _ h1 h2 Hwf2)
      by (rewrite Hc2, Hcase1; exact Hsame).
    f_equal. f_equal. apply forallb_forall. intros i Hin.
    apply in_seq in Hin. rewrite Hh2, Hrounds1 in Hin.
    destruct (wf_cases (added h1 h2 self) Hwf1) as [[Hpos _] | Hzero];
      [| rewrite Hrounds1 in Hzero; lia].
    apply (bit_at_extends h1 h2 (added h1 h2 self)); try assumption.
    + unfold extends. auto.
    + apply Hall1. lia.
Qed.

(** No false negatives on text: a string that was inserted is reported
    present, at once and after any further insertions that returned. *)
Lemma contain_after_add_str (s : string) (items : list pyobj)
  (self self1 self2 : BloomFilter) :
  wf self ->
  add mmh3_hash64 (PyStr s) self = (Returned tt, self1) ->
  bulk_add_loop mmh3_hash64 items self1 = (Returned tt, self2) ->
  contain mmh3_hash64 (PyStr s) self1 = (Returned true, self1)
  /\ contain mmh3_hash64 (PyStr s) self2 = (Returned true, self2).
Proof.
  intros Hwf. apply (contain_after_add (PyStr s) (PyStr s) s);
    [exact Hwf | reflexivity | reflexivity].
Qed.

(** With the flag set both sides are lower-cased: strings that differ in
    case only are one item. *)
Lemma contain_after_add_folded (s t : string) (items : list pyobj)
  (self self1 self2 : BloomFilter) :
  wf self ->
  case_sensitive self = true ->
  lower s = lower t ->
  add mmh3_hash64 (PyStr s) self = (Returned tt, self1) ->
  bulk_add_loop mmh3_hash64 items self1 = (Returned tt, self2) ->
  contain mmh3_hash64 (PyStr t) self1 = (Returned true, self1)
  /\ contain mmh3_hash64 (PyStr t) self2 = (Returned true, self2).
Proof.
  intros Hwf Hflag Hlow. apply (contain_after_add (PyStr s) (PyStr t) s);
    [exact Hwf | reflexivity |].
  rewrite !get_hash_str, Hflag, Hlow. reflexivity.
Qed.

(** C1, evaluated where it fails.  [add] turns its argument into text with
    [str] before hashing and [contain] does not: an item that is not text
    is inserted, and the query for it then stops in the hash derivation
    ([item.lower()] or [mmh3.hash64(item)] raises, the handler logs and
    calls [sys.exit(1)]) instead of returning true. *)
Theorem contain_after_add_not_str (item : pyobj) (text : string)
  (self : BloomFilter) (h1 h2 : Z) :
  wf self ->
  (forall s, item <> PyStr s) ->
  str item = Returned text ->
  mmh3_hash64 (if case_sensitive self then lower text else text)
  = Some (h1, h2) ->
  add mmh3_hash64 item self = (Returned tt, added h1 h2 self)
  /\ contain mmh3_hash64 item (added h1 h2 self)
     = (SysExit (if case_sensitive self then AttributeError else TypeError),
        added h1 h2 self).
Proof.
  intros Hwf Hns Hstr Hh. split.
  - apply (add_spec mmh3_hash64 item self text); [exact Hwf | exact Hstr |].
    rewrite get_hash_str, Hh. reflexivity.
  - apply contain_hash_exit. rewrite get_hash_not_str by exact Hns.
    destruct self; reflexivity.
Qed.

End Membership.

(** Inserting the integer 5 and asking for it. *)
Lemma contain_after_add_not_str_witness :
  add stub_hash64 (PyInt 5) (fresh false 13 3)
  = (Returned tt, added (-947) 2 (fresh false 13 3))
  /\ contain stub_hash64 (PyInt 5) (added (-947) 2 (fresh false 13 3))
     = (SysExit TypeError, added (-947) 2 (fresh false 13 3)).
Proof.
  apply (contain_after_add_not_str stub_hash64 (PyInt 5) "5" (fresh false 13 3)).
  - apply wf_fresh. lia.
  - intros s. discriminate.
  - vm_compute. reflexivity.
  - vm_compute. reflexivity.
Defined.

(** ** The query *)

Lemma contain_loop_S (n : nat) (c h2 : Z) (self : BloomFilter) :
  contain_loop (S n) c h2 self
  = match py_mod c (filter_size self) with
    | Returned position =>
        match bitarray_getitem position self with
        | (Returned bit, self1) =>
            if negb bit then (Returned false, self1)
            else contain_loop n (c + h2) h2 self1
        | (Raised e, self1) => (Raised e, self1)
        | (SysExit e, self1) => (SysExit e, self1)
        end
    | Raised e => (Raised e, self)
    | SysExit e => (SysExit e, self)
    end.
Proof.
  cbn [contain_loop]. unfold bind, attr, lift, ret.
  destruct (py_mod c (filter_size self)) as [position | e | e]; try reflexivity.
  destruct (bitarray_getitem position self) as [[[|] | e | e] self1]; reflexivity.
Qed.

(** Once the loop has met a 0 bit, rounds that would follow are not run:
    the result with more rounds is the result already obtained, in any
    state, also one where a later access would fail. *)
Lemma contain_loop_short_circuit (n : nat) : forall more c h2 self,
  fst (contain_loop n c h2 self) = Returned false ->
  contain_loop (n + more) c h2 self = contain_loop n c h2 self.
Proof.
  induction n as [| n IH]; intros more c h2 self Hfalse.
  - discriminate.
  - revert Hfalse. change (S n + more)%nat with (S (n + more)).
    rewrite !contain_loop_S.
    destruct (py_mod c (filter_size self)) as [position | e | e]; try reflexivity.
    destruct (bitarray_getitem position self) as [[[|] | e | e] self1];
      cbn [negb]; try reflexivity.
    apply IH.
Qed.

Lemma bit_at_lookup (self : BloomFilter) (h1 h2 : Z) (i : nat) :
  bit_at self h1 h2 i = true
  <-> bloom_bitarray self
        !! Z.to_nat ((h1 + Z.of_nat i * h2) mod filter_size self) = Some true.
Proof.
  unfold bit_at, probe.
  destruct (bloom_bitarray self !! _) as [[|] |]; split; congruence.
Qed.

Lemma forallb_seq_first_false (f : nat -> bool) (i more : nat) :
  f i = false -> forallb f (seq 0 (S i + more)) = false.
Proof.
  intros Hf. apply not_true_is_false. intros Hall.
  rewrite forallb_forall in Hall. rewrite Hall in Hf; [discriminate |].
  apply in_seq. lia.
Qed.

(** A 0 bit at the [i]-th position, after 1 bits at the positions before
    it, ends the loop with false in any state, whatever the rounds after
    it would read or raise. *)
Lemma contain_loop_first_zero (i : nat) : forall more c h2 self,
  filter_size self <> 0 ->
  (forall k, (k < i)%nat ->
     bitarray_getitem ((c + Z.of_nat k * h2) mod filter_size self) self
     = (Returned true, self)) ->
  bitarray_getitem ((c + Z.of_nat i * h2) mod filter_size self) self
  = (Returned false, self) ->
  contain_loop (S i + more) c h2 self = (Returned false, self).
Proof.
  induction i as [| i IH]; intros more c h2 self Hsize Hones Hzero.
  - change (1 + more)%nat with (S more). rewrite contain_loop_S.
    rewrite py_mod_pos by exact Hsize.
    replace (c + Z.of_nat 0 * h2) with c in Hzero by lia.
    rewrite Hzero. reflexivity.
  - change (S (S i) + more)%nat with (S (S i + more)). rewrite contain_loop_S.
    rewrite py_mod_pos by exact Hsize.
    pose proof (Hones 0%nat ltac:(lia)) as Hfirst.
    replace (c + Z.of_nat 0 * h2) with c in Hfirst by lia.
    rewrite Hfirst. cbn [negb]. apply IH; [exact Hsize | |].
    + intros k Hk. specialize (Hones (S k) ltac:(lia)).
      replace (c + h2 + Z.of_nat k * h2) with (c + Z.of_nat (S k) * h2) by lia.
      exact Hones.
    + replace (c + h2 + Z.of_nat i * h2) with (c + Z.of_nat (S i) * h2) by lia.
      exact Hzero.
Qed.

Section Query.

Variable mmh3_hash64 : string -> option (Z * Z).

(** C5.  [contain] answers true exactly when the bit at every position
    [(h1 + i * h2) mod filter_size], [i < hash_count], is 1, and leaves
    the filter as it was.  It answers false at the first position whose
    bit is 0 without going further: in every state, well-formed or not,
    a 0 bit read at position [i] after 1 bits at the positions before it
    makes the answer false, also where reading a later position would
    raise. *)
Theorem contain_iff_all_bits_set (item : pyobj) (h1 h2 : Z) :
  (forall self,
      wf self ->
      get_hash mmh3_hash64 item (case_sensitive self) = Returned (h1, h2) ->
      exists answer,
        contain mmh3_hash64 item self = (Returned answer, self)
        /\ (answer = true <->
            forall i, (i < Z.to_nat (hash_count self))%nat ->
              bloom_bitarray self
                !! Z.to_nat ((h1 + Z.of_nat i * h2) mod filter_size self)
              = Some true))
  /\ (forall self i,
        get_hash mmh3_hash64 item (case_sensitive self) = Returned (h1, h2) ->
        filter_size self <> 0 ->
        (i < Z.to_nat (hash_count self))%nat ->
        (forall k, (k < i)%nat ->
           bitarray_getitem ((h1 + Z.of_nat k * h2) mod filter_size self) self
           = (Returned true, self)) ->
        bitarray_getitem ((h1 + Z.of_nat i * h2) mod filter_size self) self
        = (Returned false, self) ->
        contain mmh3_hash64 item self = (Returned false, self)).
Proof.
  split.
  - intros self Hwf Hhash.
    rewrite (contain_spec mmh3_hash64 item self h1 h2 Hwf Hhash).
    eexists. split; [reflexivity |]. rewrite forallb_forall. split.
    + intros Hall i Hi. apply bit_at_lookup, Hall, in_seq. lia.
    + intros Hall i Hin. apply in_seq in Hin. apply bit_at_lookup, Hall. lia.
  - intros self i Hhash Hsize Hi Hones Hzero.
    unfold contain. unfold bind at 1, attr at 1. unfold bind at 1, lift at 1.
    rewrite Hhash. cbn [fst snd]. unfold try_except, bind at 1, attr at 1.
    replace (Z.to_nat (hash_count self))
      with (S i + (Z.to_nat (hash_count self) - S i))%nat by lia.
    rewrite (contain_loop_first_zero i _ h1 h2 self Hsize Hones Hzero).
    reflexivity.
Qed.

(** C9.  With [filter_size >= 1] every position [current_hash %
    filter_size] of the double hashing, for any integers [h1] and [h2]
    (so also large or negative 64-bit values), is an index of the bit
    array: the loops of [add] and [contain] never raise, for any number
    of rounds. *)
Theorem positions_in_bounds (self : BloomFilter) (h1 h2 : Z) :
  wf self ->
  1 <= filter_size self ->
  (forall i : nat, exists position,
      py_mod (h1 + Z.of_nat i * h2) (filter_size self) = Returned position
      /\ 0 <= position < filter_size self
      /\ py_index (length (bloom_bitarray self)) position
         = Some (Z.to_nat position))
  /\ (forall n, fst (add_loop n h1 h2 self) = Returned tt)
  /\ (forall n, exists answer, contain_loop n h1 h2 self = (Returned answer, self))
  /\ (forall item text,
        str item = Returned text ->
        get_hash mmh3_hash64 (PyStr text) (case_sensitive self)
        = Returned (h1, h2) ->
        fst (add mmh3_hash64 item self) = Returned tt)
  /\ (forall item,
        get_hash mmh3_hash64 item (case_sensitive self) = Returned (h1, h2) ->
        exists answer, contain mmh3_hash64 item self = (Returned answer, self)).
Proof.
  intros Hwf Hsize. pose proof Hwf as [Hlen _].
  repeat split.
  - intros i. exists ((h1 + Z.of_nat i * h2) mod filter_size self).
    pose proof (mod_in_range (h1 + Z.of_nat i * h2) (filter_size self)) as Hr.
    split; [apply py_mod_pos; lia |]. split; [apply Hr; lia |].
    apply py_index_in_range. rewrite <- Hlen. apply Hr. lia.
  - intros n. rewrite add_loop_spec by (assumption || lia). reflexivity.
  - intros n. rewrite contain_loop_spec by (assumption || lia). eexists. reflexivity.
  - intros item text Hstr Hhash.
    rewrite (add_spec mmh3_hash64 item self text h1 h2 Hwf Hstr Hhash).
    reflexivity.
  - intros item Hhash.
    rewrite (contain_spec mmh3_hash64 item self h1 h2 Hwf Hhash).
    eexists. reflexivity.
Qed.

End Query.

(** ** Insertion *)

Lemma call_add_stuck (mmh3_hash64 : string -> option (Z * Z))
  (items : list pyobj) (st : outcome unit * BloomFilter) :
  (forall u, fst st <> Returned u) ->
  fold_left (call_add mmh3_hash64) items st = st.
Proof.
  intros Hfail. induction items as [| item rest IH]; [reflexivity |].
  cbn [fold_left]. unfold call_add at 2.
  destruct (fst st) as [u | e | e] eqn:Hst; [destruct (Hfail u); reflexivity | |];
    exact IH.
Qed.

Section Insertion.

Variable mmh3_hash64 : string -> option (Z * Z).

(** C7.  A second [add] of the same item right after the first leaves the
    bit array as the first left it, and no query can tell the two states
    apart; only [counter] moves, by one per call. *)
Theorem add_twice (item : pyobj) (self : BloomFilter) :
  wf self ->
  fst (add mmh3_hash64 item self) = Returned tt ->
  let once := snd (add mmh3_hash64 item self) in
  let twice := snd (add mmh3_hash64 item once) in
  fst (add mmh3_hash64 item once) = Returned tt
  /\ bloom_bitarray twice = bloom_bitarray once
  /\ (forall query,
        fst (contain mmh3_hash64 query twice) = fst (contain mmh3_hash64 query once))
  /\ counter once = counter self + 1
  /\ counter twice = counter self + 2
  /\ twice = with_counter (counter once + 1) once.
Proof.
  intros Hwf Hret.
  destruct (add_cases mmh3_hash64 item self Hwf)
    as [(text & h1 & h2 & Hstr & Hhash & Hadd)
       | [(text & e & _ & _ & Hexit) | (e & _ & Hexit)]];
    try (rewrite Hexit in Hret; discriminate).
  rewrite Hadd. cbn [snd].
  pose proof (wf_added h1 h2 self Hwf) as Hwf1.
  assert (Hadd2 : add mmh3_hash64 item (added h1 h2 self)
                  = (Returned tt, added h1 h2 (added h1 h2 self))).
  { apply (add_spec mmh3_hash64 item _ text); [exact Hwf1 | exact Hstr |].
    destruct self; exact Hhash. }
  rewrite Hadd2. cbn [fst snd].
  assert (Hbits : bloom_bitarray (added h1 h2 (added h1 h2 self))
                  = bloom_bitarray (added h1 h2 self)).
  { destruct self; cbn. apply mark_idempotent. }
  split; [reflexivity |]. split; [exact Hbits |]. split; [| split; [| split]].
  - intros query. apply contain_same_bits; [exact Hwf1 | | exact Hbits].
    apply added_extends.
  - destruct self; reflexivity.
  - destruct self; cbn. lia.
  - destruct self; unfold added, with_counter, with_bits; cbn.
    f_equal. apply mark_idempotent.
Qed.

Lemma bulk_add_loop_fold (items : list pyobj) : forall self,
  bulk_add_loop mmh3_hash64 items self = add_each mmh3_hash64 items self.
Proof.
  unfold add_each.
  induction items as [| item rest IH]; intros self; [reflexivity |].
  cbn [bulk_add_loop fold_left]. unfold bind. unfold call_add at 2.
  cbn [fst snd].
  destruct (add mmh3_hash64 item self) as [[[] | e | e] self1] eqn:Hadd.
  - apply IH.
  - rewrite call_add_stuck; [reflexivity | intros u; discriminate].
  - rewrite call_add_stuck; [reflexivity | intros u; discriminate].
Qed.

Lemma bulk_add_unfold (items : list pyobj) (self : BloomFilter) :
  bulk_add mmh3_hash64 items self
  = (catch_exit (fst (bulk_add_loop mmh3_hash64 items self)),
     snd (bulk_add_loop mmh3_hash64 items self)).
Proof.
  unfold bulk_add, try_except.
  destruct (bulk_add_loop mmh3_hash64 items self) as [o self1]. reflexivity.
Qed.

Lemma add_each_app (pre post : list pyobj) (self : BloomFilter) :
  add_each mmh3_hash64 (pre ++ post) self
  = fold_left (call_add mmh3_hash64) post (add_each mmh3_hash64 pre self).
Proof. unfold add_each. apply fold_left_app. Qed.

(** C8.  [bulk_add] leaves the filter in the state that inserting the
    items one by one in their order leaves, bit array and counter; it ends
    as that sequence of calls ends, except that what [add] raises is
    logged and turned into an exit by the handler of [bulk_add].  When an
    item in the middle fails, the run stops there and the state is the one
    the items before it produced, with all their bits. *)
Theorem bulk_add_is_add_each :
  (forall items self,
      snd (bulk_add mmh3_hash64 items self) = snd (add_each mmh3_hash64 items self)
      /\ fst (bulk_add mmh3_hash64 items self)
         = catch_exit (fst (add_each mmh3_hash64 items self)))
  /\ (forall pre bad post self before,
        add_each mmh3_hash64 pre self = (Returned tt, before) ->
        (forall u, fst (add mmh3_hash64 bad before) <> Returned u) ->
        snd (bulk_add mmh3_hash64 (pre ++ bad :: post) self)
        = snd (add mmh3_hash64 bad before)
        /\ fst (bulk_add mmh3_hash64 (pre ++ bad :: post) self)
           = catch_exit (fst (add mmh3_hash64 bad before))
        /\ extends self before
        /\ extends before (snd (add mmh3_hash64 bad before))).
Proof.
  assert (Heq : forall items self,
             bulk_add mmh3_hash64 items self
             = (catch_exit (fst (add_each mmh3_hash64 items self)),
                snd (add_each mmh3_hash64 items self))).
  { intros items self. rewrite bulk_add_unfold, bulk_add_loop_fold. reflexivity. }
  split.
  - intros items self. rewrite Heq. split; reflexivity.
  - intros pre bad post self before Hpre Hbad.
    assert (Hrun : add_each mmh3_hash64 (pre ++ bad :: post) self
                   = add mmh3_hash64 bad before).
    { rewrite add_each_app, Hpre. cbn [fold_left]. unfold call_add at 2.
      cbn [fst snd]. apply call_add_stuck. exact Hbad. }
    rewrite Heq, Hrun. cbn [fst snd]. split; [reflexivity |].
    split; [reflexivity |]. split.
    + pose proof (bulk_add_loop_extends mmh3_hash64 pre self) as Hext.
      rewrite bulk_add_loop_fold, Hpre in Hext. exact Hext.
    + apply add_extends.
Qed.

End Insertion.

(** ** Construction leaves an empty bit array *)

Lemma init_inv (plat : Platform) (items : Z) (p : pyfloat) (case : bool)
  (self : BloomFilter) :
  __init__ plat items p case = Returned self ->
  exists size rounds,
    get_filter_size plat items p = Returned size
    /\ get_hash_count plat items size = Returned rounds
    /\ 0 <= size <= max_bits plat
    /\ size <= maxsize plat
    /\ self = mkBloomFilter items p case 0 false size rounds
                (repeat false (Z.to_nat size)).
Proof.
  unfold __init__. intros Hinit.
  destruct (get_filter_size plat items p) as [size | e | e] eqn:Hsize;
    try discriminate.
  cbn [obind] in Hinit.
  destruct (get_hash_count plat items size) as [rounds | e | e] eqn:Hrounds;
    try discriminate.
  cbn [obind] in Hinit. unfold bitarray in Hinit.
  destruct (Z.ltb_spec size (- maxsize plat - 1)); try discriminate.
  destruct (Z.ltb_spec (maxsize plat) size); try discriminate.
  cbn [orb] in Hinit.
  destruct (Z.ltb_spec size 0); try discriminate.
  destruct (Z.ltb_spec (max_bits plat) size); try discriminate.
  cbn [obind] in Hinit. injection Hinit as <-.
  exists size, rounds. unfold setall. rewrite repeat_length.
  split; [reflexivity |]. split; [exact Hrounds |]. split; [lia |].
  split; [lia | reflexivity].
Qed.

Lemma lookup_repeat_false (n j : nat) : repeat false n !! j <> Some true.
Proof.
  intros Hj. apply list_elem_of_lookup_2, list_elem_of_In, repeat_spec in Hj.
  discriminate.
Qed.

Section Lifetime.

Variable mmh3_hash64 : string -> option (Z * Z).

(** C6.  A filter that was just constructed has no bit set; and a bit
    that is 1 before [add], [bulk_add] or [contain] is 1 after it, however
    the call ends. *)
Theorem bits_never_cleared :
  (forall plat items p case self,
      __init__ plat items p case = Returned self ->
      Z.of_nat (length (bloom_bitarray self)) = filter_size self
      /\ forall j, bloom_bitarray self !! j <> Some true)
  /\ (forall self j,
        bloom_bitarray self !! j = Some true ->
        (forall item,
            bloom_bitarray (snd (add mmh3_hash64 item self)) !! j = Some true)
        /\ (forall items,
              bloom_bitarray (snd (bulk_add mmh3_hash64 items self)) !! j = Some true)
        /\ (forall item,
              bloom_bitarray (snd (contain mmh3_hash64 item self)) !! j = Some true)).
Proof.
  split.
  - intros plat items p case self Hinit.
    destruct (init_inv plat items p case self Hinit)
      as (size & rounds & _ & _ & Hsize & _ & ->).
    cbn. split.
    + rewrite repeat_length. lia.
    + intros j. apply lookup_repeat_false.
  - intros self j Hj. split; [| split].
    + intros item. destruct (add_extends mmh3_hash64 item self) as (_ & _ & _ & _ & Hmono).
      apply Hmono, Hj.
    + intros items.
      destruct (bulk_add_extends mmh3_hash64 items self) as (_ & _ & _ & _ & Hmono).
      apply Hmono, Hj.
    + intros item. rewrite contain_state. exact Hj.
Qed.

(** C10.  [add] derives the hash pair from [str(item)], [contain] from
    [item] itself.  On a string the two derivations are one; on anything
    else [contain] hands the hash derivation a value that is not the text
    [add] hashed, and the derivation stops there. *)
Theorem hash_input_asymmetry :
  (forall item self,
      add mmh3_hash64 item self
      = (do text <- lift (str item);
         do hash_vals <- lift (get_hash mmh3_hash64 (PyStr text)
                                 (case_sensitive self));
         try_except
           (do rounds <- attr hash_count;
            run add_loop (Z.to_nat rounds) (fst hash_vals) (snd hash_vals);
            incr_counter))%method self)
  /\ (forall item self,
        contain mmh3_hash64 item self
        = (do hash_vals <- lift (get_hash mmh3_hash64 item (case_sensitive self));
           try_except
             (do rounds <- attr hash_count;
              contain_loop (Z.to_nat rounds) (fst hash_vals) (snd hash_vals)))%method
            self)
  /\ (forall s, str (PyStr s) = Returned s)
  /\ (forall item case,
        (forall s, item <> PyStr s) ->
        get_hash mmh3_hash64 item case
        = SysExit (if case then AttributeError else TypeError)
        /\ forall text,
             str item = Returned text ->
             PyStr text <> item
             /\ get_hash mmh3_hash64 (PyStr text) case
                = match mmh3_hash64 (if case then lower text else text) with
                  | Some hash_vals => Returned hash_vals
                  | None => SysExit HashError
                  end).
Proof.
  split; [reflexivity |]. split; [reflexivity |]. split; [reflexivity |].
  intros item case Hns. split.
  - apply get_hash_not_str. exact Hns.
  - intros text Hstr. split.
    + intros Heq. apply (Hns text). symmetry. exact Heq.
    + apply get_hash_str.
Qed.

End Lifetime.

(** ** The case flag *)

(** C2, evaluated.  The flag works the other way round: with
    [case_sensitive = False] the item is hashed as given, so "Foo" and
    "foo" are two items (with the stand-in hash the query misses); with
    [case_sensitive = True] it is lower-cased first, so they are one. *)
Theorem case_flag_inverted :
  (forall mmh3_hash64 s,
      get_hash mmh3_hash64 (PyStr s) false
      = match mmh3_hash64 s with
        | Some hash_vals => Returned hash_vals
        | None => SysExit HashError
        end)
  /\ (forall mmh3_hash64 s,
        get_hash mmh3_hash64 (PyStr s) true
        = match mmh3_hash64 (lower s) with
          | Some hash_vals => Returned hash_vals
          | None => SysExit HashError
          end)
  /\ lower "Foo" = "foo"%string
  /\ fst (contain stub_hash64 (PyStr "foo")
            (snd (add stub_hash64 (PyStr "Foo") (fresh false 13 3))))
     = Returned false
  /\ fst (contain stub_hash64 (PyStr "Foo")
            (snd (add stub_hash64 (PyStr "foo") (fresh false 13 3))))
     = Returned false
  /\ fst (contain stub_hash64 (PyStr "foo")
            (snd (add stub_hash64 (PyStr "Foo") (fresh true 13 3))))
     = Returned true
  /\ fst (contain stub_hash64 (PyStr "Foo")
            (snd (add stub_hash64 (PyStr "foo") (fresh true 13 3))))
     = Returned true.
Proof.
  split; [intros h s; apply get_hash_str |].
  split; [intros h s; apply get_hash_str |].
  repeat split; vm_compute; reflexivity.
Qed.

(** ** Real numbers: logarithm and rounding to an integer *)

Section RealFacts.

Local Open Scope R_scope.

Lemma ln_2_gt_half : 1 / 2 < ln 2.
Proof. pose proof ln_lt_2. lra. Qed.

Lemma ln_2_lt_1 : ln 2 < 1.
Proof.
  rewrite <- (ln_exp 1). apply ln_increasing; [lra |].
  pose proof (exp_ineq1 1). lra.
Qed.

Lemma ln_2_lt_3_4 : ln 2 < 3 / 4.
Proof.
  rewrite <- (ln_exp (3 / 4)). apply ln_increasing; [lra |].
  pose proof (exp_ineq1_le (3 / 32)) as H1.
  assert (H2 : exp (3 / 16) = exp (3 / 32) * exp (3 / 32))
    by (rewrite <- exp_plus; f_equal; lra).
  assert (H4 : exp (3 / 8) = exp (3 / 16) * exp (3 / 16))
    by (rewrite <- exp_plus; f_equal; lra).
  assert (H8 : exp (3 / 4) = exp (3 / 8) * exp (3 / 8))
    by (rewrite <- exp_plus; f_equal; lra).
  assert (B2 : 1225 / 1024 <= exp (3 / 16)) by (rewrite H2; nra).
  assert (B4 : 143 / 100 <= exp (3 / 8)) by (rewrite H4; nra).
  rewrite H8. nra.
Qed.

(** [exp x <= 1 / (1 - x)] below 1 *)
Lemma exp_le_inv (x : R) : x < 1 -> exp x * (1 - x) <= 1.
Proof.
  intros Hx. pose proof (exp_ineq1_le (- x)) as Hneg.
  pose proof (exp_pos x) as Hpos.
  assert (Hprod : exp x * exp (- x) = 1)
    by (rewrite <- exp_plus; replace (x + - x) with 0 by lra; apply exp_0).
  nra.
Qed.

(** [exp x >= (1 + x / 2)^2] *)
Lemma exp_ge_square (x : R) : 0 <= x -> (1 + x / 2) * (1 + x / 2) <= exp x.
Proof.
  intros Hx. pose proof (exp_ineq1_le (x / 2)) as Hhalf.
  assert (Hsq : exp x = exp (x / 2) * exp (x / 2))
    by (rewrite <- exp_plus; f_equal; lra).
  rewrite Hsq. nra.
Qed.

Lemma ln_2_gt_3_5 : 3 / 5 < ln 2.
Proof.
  rewrite <- (ln_exp (3 / 5)). apply ln_increasing; [apply exp_pos |].
  pose proof (exp_le_inv (3 / 40) ltac:(lra)) as H1.
  pose proof (exp_pos (3 / 40)) as P1.
  assert (H2 : exp (3 / 20) = exp (3 / 40) * exp (3 / 40))
    by (rewrite <- exp_plus; f_equal; lra).
  assert (H4 : exp (3 / 10) = exp (3 / 20) * exp (3 / 20))
    by (rewrite <- exp_plus; f_equal; lra).
  assert (H8 : exp (3 / 5) = exp (3 / 10) * exp (3 / 10))
    by (rewrite <- exp_plus; f_equal; lra).
  assert (B1 : exp (3 / 40) <= 1082 / 1000) by nra.
  assert (B2 : exp (3 / 20) <= 1171 / 1000) by (rewrite H2; nra).
  assert (P2 : 0 < exp (3 / 20)) by apply exp_pos.
  assert (B4 : exp (3 / 10) <= 1372 / 1000) by (rewrite H4; nra).
  assert (P4 : 0 < exp (3 / 10)) by apply exp_pos.
  rewrite H8. nra.
Qed.

(** [log(p) <= p - 1], the tangent at 1 *)
Lemma ln_le_tangent (p : R) : 0 < p -> ln p <= p - 1.
Proof.
  intros Hp. pose proof (exp_ineq1_le (ln p)) as H. rewrite exp_ln in H by exact Hp.
  lra.
Qed.

(** [log(p) >= 1 - 1 / p] *)
Lemma ln_ge_cotangent (p : R) : 0 < p -> 1 - / p <= ln p.
Proof.
  intros Hp. pose proof (Rinv_0_lt_compat p Hp) as Hinv.
  pose proof (ln_le_tangent (/ p) Hinv) as H. rewrite ln_Rinv in H by exact Hp.
  lra.
Qed.

Lemma ln_neg (p : R) : 0 < p -> p < 1 -> ln p < 0.
Proof. intros Hp Hp1. pose proof (ln_le_tangent p Hp). lra. Qed.

Lemma ln_nonneg (p : R) : 1 <= p -> 0 <= ln p.
Proof.
  intros [Hp | <-]; [| rewrite ln_1; lra].
  rewrite <- ln_1. left. apply ln_increasing; lra.
Qed.

Lemma ln_monotone (x y : R) : 0 < x -> x <= y -> ln x <= ln y.
Proof.
  intros Hx [Hlt | ->]; [| apply Rle_refl].
  left. apply ln_increasing; assumption.
Qed.

Lemma py_round_bounds (x : R) :
  IZR (py_round x) - 1 / 2 <= x <= IZR (py_round x) + 1 / 2.
Proof.
  unfold py_round. pose proof (Zfloor_bound x) as Hf.
  destruct (Rlt_dec (x - IZR (Zfloor x)) (1 / 2)); [lra |].
  destruct (Rlt_dec (1 / 2) (x - IZR (Zfloor x))); [rewrite plus_IZR; lra |].
  destruct (Z.even (Zfloor x)); [lra | rewrite plus_IZR; lra].
Qed.

Lemma py_round_nonpos (x : R) : x <= 0 -> (py_round x <= 0)%Z.
Proof.
  intros Hx. pose proof (py_round_bounds x) as Hb.
  assert (H1 : (py_round x < 1)%Z) by (apply lt_IZR; lra). lia.
Qed.

Lemma py_round_nonneg (x : R) : 0 <= x -> (0 <= py_round x)%Z.
Proof.
  intros Hx. pose proof (py_round_bounds x) as Hb.
  assert (H1 : (-1 < py_round x)%Z) by (apply lt_IZR; lra). lia.
Qed.

(** Up to one half, the tie included, [round] gives 0. *)
Lemma py_round_small (x : R) : 0 <= x <= 1 / 2 -> py_round x = 0%Z.
Proof.
  intros Hx. unfold py_round.
  assert (Hf : Zfloor x = 0%Z) by (apply Zfloor_eq; lra).
  rewrite Hf. replace (x - 0) with x by lra.
  destruct (Rlt_dec x (1 / 2)); [reflexivity |].
  destruct (Rlt_dec (1 / 2) x); [lra | reflexivity].
Qed.

Lemma Zceil_pos (x : R) : 0 < x -> (0 < Zceil x)%Z.
Proof.
  intros Hx. pose proof (Zceil_bound x) as Hb. apply lt_IZR. lra.
Qed.

Lemma Zceil_pos_inv (x : R) : (0 < Zceil x)%Z -> 0 < x.
Proof.
  intros Hc. pose proof (Zceil_bound x) as Hb.
  assert (H1 : 1 <= IZR (Zceil x)) by (apply IZR_le; lia). lra.
Qed.

Lemma Zceil_0 : Zceil 0 = 0%Z.
Proof. apply Zceil_eq. lra. Qed.

End RealFacts.

(** ** Rounding on a sound platform *)

Section Powers.

Local Open Scope R_scope.

Lemma pow2_IZR (n : nat) : 2 ^ n = IZR (2 ^ Z.of_nat n).
Proof. apply pow_IZR. Qed.

Lemma inv_pow2_le (n : nat) (k : Z) :
  (0 < k <= 2 ^ Z.of_nat n)%Z -> / 2 ^ n <= / IZR k.
Proof.
  intros [Hk Hle]. rewrite pow2_IZR. apply Rinv_le_contravar.
  - apply IZR_lt. exact Hk.
  - apply IZR_le. exact Hle.
Qed.

Lemma scaled_le (a : R) (n : nat) (k : Z) :
  (0 < k <= 2 ^ Z.of_nat n)%Z -> 0 <= a -> a / 2 ^ n <= a / IZR k.
Proof.
  intros Hk Ha. unfold Rdiv. apply Rmult_le_compat_l; [exact Ha |].
  apply inv_pow2_le. exact Hk.
Qed.

Lemma fmax_large : IZR (2 ^ 70) <= fmax.
Proof. unfold fmax. apply IZR_le. vm_compute. discriminate. Qed.

Lemma overflows_small (y : R) : Rabs y <= IZR (2 ^ 70) -> overflows y = false.
Proof.
  intros Hy. unfold overflows. pose proof fmax_large.
  destruct (Rlt_dec fmax (Rabs y)); [lra | reflexivity].
Qed.

Lemma is_zero_false (y : R) : y <> 0 -> is_zero y = false.
Proof. intros Hy. unfold is_zero. destruct (Req_dec_T y 0); [contradiction | reflexivity]. Qed.

Lemma is_negative_true (y : R) : y < 0 -> is_negative y = true.
Proof. intros Hy. unfold is_negative. destruct (Rlt_dec y 0); [reflexivity | lra]. Qed.

Lemma is_negative_false (y : R) : 0 <= y -> is_negative y = false.
Proof. intros Hy. unfold is_negative. destruct (Rlt_dec y 0); [lra | reflexivity]. Qed.

End Powers.

Section Rounding.

Local Open Scope R_scope.

Variable plat : Platform.
Hypothesis Hsound : sound plat.

Lemma fl_0 : fl plat 0 = 0.
Proof. apply (fl_integer plat Hsound 0). vm_compute. discriminate. Qed.

Lemma fl_1 : fl plat 1 = 1.
Proof. apply (fl_integer plat Hsound 1). vm_compute. discriminate. Qed.

Lemma fl_nonneg (x : R) : 0 <= x -> 0 <= fl plat x.
Proof. intros Hx. rewrite <- fl_0. apply (fl_monotone plat Hsound). exact Hx. Qed.

Lemma fl_nonpos (x : R) : x <= 0 -> fl plat x <= 0.
Proof. intros Hx. rewrite <- fl_0. apply (fl_monotone plat Hsound). exact Hx. Qed.

(** Rounding moves a result that is not tiny by at most a thousandth. *)
Lemma fl_close (x : R) :
  / IZR (2 ^ 60) <= Rabs x -> Rabs (fl plat x - x) <= Rabs x / 1000.
Proof.
  intros Hx.
  assert (Hnormal : / 2 ^ 1022 <= Rabs x).
  { eapply Rle_trans; [| exact Hx]. apply inv_pow2_le. vm_compute.
    split; [reflexivity | discriminate]. }
  eapply Rle_trans; [apply (fl_error plat Hsound x Hnormal) |].
  apply (scaled_le _ 53 1000); [vm_compute; split; [reflexivity | discriminate] |].
  apply Rabs_pos.
Qed.

Lemma fl_close_pos (x : R) :
  / IZR (2 ^ 60) <= x -> x * (999 / 1000) <= fl plat x <= x * (1001 / 1000).
Proof.
  intros Hx.
  assert (Hpos : 0 < / IZR (2 ^ 60)) by (apply Rinv_0_lt_compat, IZR_lt; reflexivity).
  assert (Habs : / IZR (2 ^ 60) <= Rabs x) by (rewrite Rabs_pos_eq; lra).
  pose proof (fl_close x Habs) as Hc. rewrite (Rabs_pos_eq x) in Hc by lra.
  split_abs; lra.
Qed.

Lemma fl_close_neg (x : R) :
  x <= - / IZR (2 ^ 60) -> x * (1001 / 1000) <= fl plat x <= x * (999 / 1000).
Proof.
  intros Hx.
  assert (Hpos : 0 < / IZR (2 ^ 60)) by (apply Rinv_0_lt_compat, IZR_lt; reflexivity).
  assert (Habs : / IZR (2 ^ 60) <= Rabs x) by (rewrite Rabs_left; lra).
  pose proof (fl_close x Habs) as Hc. rewrite (Rabs_left x) in Hc by lra.
  split_abs; lra.
Qed.

Lemma log_close (x : R) :
  0 < x -> Rabs (libm_log plat x - ln x) <= Rabs (ln x) / 1000.
Proof.
  intros Hx. eapply Rle_trans; [apply (log_error plat Hsound x Hx) |].
  apply (scaled_le _ 40 1000); [vm_compute; split; [reflexivity | discriminate] |].
  apply Rabs_pos.
Qed.

(** The library logarithm has the sign of the exact one. *)
Lemma log_close_neg (x : R) :
  0 < x -> x < 1 ->
  ln x * (1001 / 1000) <= libm_log plat x <= ln x * (999 / 1000).
Proof.
  intros Hx Hx1. pose proof (ln_neg x Hx Hx1) as Hln.
  pose proof (log_close x Hx) as Hc. rewrite (Rabs_left (ln x)) in Hc by lra.
  split_abs; lra.
Qed.

Lemma log_close_pos (x : R) :
  1 <= x ->
  ln x * (999 / 1000) <= libm_log plat x <= ln x * (1001 / 1000).
Proof.
  intros Hx. pose proof (ln_nonneg x Hx) as Hln.
  pose proof (log_close x ltac:(lra)) as Hc.
  rewrite (Rabs_pos_eq (ln x)) in Hc by lra.
  split_abs; lra.
Qed.

Lemma pow2_close (y : R) :
  0 <= y <= 1 ->
  Rpower 2 y * (999 / 1000) <= libm_pow2 plat y <= Rpower 2 y * (1001 / 1000).
Proof.
  intros Hy. pose proof (pow2_error plat Hsound y Hy) as He.
  assert (Hpos : 0 < Rpower 2 y) by apply exp_pos.
  assert (Hc : Rabs (libm_pow2 plat y - Rpower 2 y) <= Rpower 2 y / 1000).
  { eapply Rle_trans; [exact He |].
    apply (scaled_le _ 40 1000); [vm_compute; split; [reflexivity | discriminate] | lra]. }
  split_abs; lra.
Qed.

End Rounding.

(** ** The constants of the planning functions *)

Section Constants.

Local Open Scope R_scope.

Variable plat : Platform.
Hypothesis Hsound : sound plat.

Lemma log_2_bounds : 599 / 1000 < log_2 plat < 751 / 1000.
Proof.
  unfold log_2. pose proof (log_close_pos plat Hsound 2 ltac:(lra)) as Hc.
  pose proof ln_2_gt_3_5. pose proof ln_2_lt_3_4. lra.
Qed.

Lemma power_bounds :
  138 / 100 <= libm_pow2 plat (log_2 plat) <= 23 / 10.
Proof.
  pose proof log_2_bounds as Hl. pose proof ln_2_gt_3_5 as Hlo.
  pose proof ln_2_lt_3_4 as Hhi.
  pose proof (pow2_close plat Hsound (log_2 plat) ltac:(lra)) as Hc.
  unfold Rpower in Hc. set (x := log_2 plat * ln 2) in *.
  assert (Hx : 359 / 1000 <= x <= 564 / 1000) by (unfold x; nra).
  pose proof (exp_ge_square x ltac:(lra)) as Hge.
  pose proof (exp_le_inv x ltac:(lra)) as Hle.
  pose proof (exp_pos x) as Hpos.
  assert (Hup : exp x <= 2294 / 1000) by nra.
  assert (Hdown : 1391 / 1000 <= exp x) by nra.
  lra.
Qed.

Lemma inverse_bounds :
  43 / 100 <= fl plat (1 / libm_pow2 plat (log_2 plat)) <= 73 / 100.
Proof.
  pose proof power_bounds as Hp. set (P := libm_pow2 plat (log_2 plat)) in *.
  assert (Hinv : P * (1 / P) = 1) by (field; lra).
  assert (Hq : 434 / 1000 <= 1 / P <= 725 / 1000) by (split; nra).
  assert (Hsmall : / IZR (2 ^ 60) <= 1 / P).
  { eapply Rle_trans; [| apply Hq]. rewrite <- (Rinv_inv (434 / 1000)).
    apply Rinv_le_contravar; [lra |].
    replace (/ (434 / 1000)) with (1000 / 434) by (field; lra).
    eapply Rle_trans; [| apply IZR_le with (n := 3%Z); vm_compute; discriminate].
    lra. }
  pose proof (fl_close_pos plat Hsound (1 / P) Hsmall) as Hc. lra.
Qed.

Lemma denominator_bounds : -14 / 10 <= denominator plat <= -26 / 100.
Proof.
  unfold denominator. pose proof inverse_bounds as Hq.
  set (Q := fl plat (1 / libm_pow2 plat (log_2 plat))) in *.
  pose proof (log_close_neg plat Hsound Q ltac:(lra) ltac:(lra)) as Hc.
  pose proof (ln_le_tangent Q ltac:(lra)) as Hup.
  pose proof (ln_ge_cotangent Q ltac:(lra)) as Hdown.
  assert (Hinv : / Q <= 100 / 43).
  { replace (100 / 43) with (/ (43 / 100)) by (field; lra).
    apply Rinv_le_contravar; lra. }
  lra.
Qed.

Lemma math_log_finite (x : R) :
  0 < x -> math_log plat (Finite x) = Returned (Finite (libm_log plat x)).
Proof. intros Hx. unfold math_log. destruct (Rlt_dec 0 x); [reflexivity | lra]. Qed.

Lemma math_log_nonpos (x : R) :
  x <= 0 -> math_log plat (Finite x) = Raised ValueError.
Proof. intros Hx. unfold math_log. destruct (Rlt_dec 0 x); [lra | reflexivity]. Qed.

Lemma finish_small (x : R) :
  Rabs (fl plat x) <= IZR (2 ^ 70) -> finish plat x = Finite (fl plat x).
Proof. intros Hx. unfold finish. rewrite overflows_small by exact Hx. reflexivity. Qed.

Lemma two_pow_70 : IZR (2 ^ 70) = 1180591620717411303424.
Proof. reflexivity. Qed.

(** How the divisor is computed: no step fails. *)
Lemma denominator_computed :
  (do log_2 <- math_log plat (Finite 2);
   do power <- float_pow2 plat log_2;
   do inverse <- float_truediv plat (Finite 1) power;
   math_log plat inverse)%outcome
  = Returned (Finite (denominator plat)).
Proof.
  rewrite math_log_finite by lra. cbn [obind]. fold (log_2 plat).
  pose proof power_bounds as Hp. pose proof inverse_bounds as Hq.
  pose proof two_pow_70 as H70.
  unfold float_pow2. rewrite overflows_small by (split_abs; lra). cbn [obind].
  unfold float_truediv. rewrite is_zero_false by lra.
  rewrite finish_small by (split_abs; lra). cbn [obind].
  rewrite math_log_finite by lra. reflexivity.
Qed.

(** [get_filter_size] once the constants are known. *)
Lemma get_filter_size_finite (items : Z) (p : R) :
  0 < p ->
  get_filter_size plat items (Finite p)
  = catch_exit
      (do items_float <- int_to_float plat items;
       do size <- float_truediv plat
                    (float_mul plat items_float (Finite (libm_log plat p)))
                    (Finite (denominator plat));
       math_ceil size)%outcome.
Proof.
  intros Hp. unfold get_filter_size. rewrite math_log_finite by exact Hp.
  cbn [obind]. destruct (int_to_float plat items) as [f | e | e];
    cbn [obind]; try reflexivity.
  pose proof denominator_computed as Hd.
  destruct (math_log plat (Finite 2)) as [l2 | e | e]; cbn [obind] in *;
    try discriminate.
  destruct (float_pow2 plat l2) as [pw | e | e]; cbn [obind] in *; try discriminate.
  destruct (float_truediv plat (Finite 1) pw) as [inv | e | e]; cbn [obind] in *;
    try discriminate.
  rewrite Hd. reflexivity.
Qed.

Lemma get_hash_count_nonzero (items size : Z) :
  items <> 0%Z ->
  get_hash_count plat items size
  = catch_exit
      (if overflows (fl plat (IZR size / IZR items)) then Raised OverflowError
       else builtin_round
              (finish plat (fl plat (IZR size / IZR items) * log_2 plat))).
Proof.
  intros Hn. unfold get_hash_count, int_truediv.
  destruct (Z.eqb_spec items 0); [contradiction |].
  destruct (overflows _); cbn [obind]; [reflexivity |].
  rewrite math_log_finite by lra. reflexivity.
Qed.

Lemma get_hash_count_zero (size : Z) :
  get_hash_count plat 0 size = SysExit ZeroDivisionError.
Proof. reflexivity. Qed.

End Constants.

(** ** Sizes and rounds for valid parameters *)

Lemma exact_sound : sound exact.
Proof.
  constructor; unfold exact; cbn [fl libm_log libm_pow2 maxsize max_bits].
  - intros x y Hxy. exact Hxy.
  - intros k _. reflexivity.
  - intros x _. replace (x - x)%R with 0%R by lra. rewrite Rabs_R0.
    apply Rmult_le_pos; [apply Rabs_pos |].
    left. apply Rinv_0_lt_compat, pow_lt. lra.
  - intros x _. replace (ln x - ln x)%R with 0%R by lra. rewrite Rabs_R0.
    apply Rmult_le_pos; [apply Rabs_pos |].
    left. apply Rinv_0_lt_compat, pow_lt. lra.
  - intros y _. replace (Rpower 2 y - Rpower 2 y)%R with 0%R by lra. rewrite Rabs_R0.
    apply Rmult_le_pos; [left; apply exp_pos |].
    left. apply Rinv_0_lt_compat, pow_lt. lra.
  - lia.
Qed.

Section CapacityBounds.

Local Open Scope R_scope.

Variable plat : Platform.
Hypothesis Hsound : sound plat.

Lemma tiny_53 : / IZR (2 ^ 60) <= / 2 ^ 53 * (99 / 100) / (14 / 10).
Proof.
  rewrite pow2_IZR. change (Z.of_nat 53) with 53%Z.
  replace (IZR (2 ^ 60)) with (IZR (2 ^ 53) * 128)
    by (rewrite <- mult_IZR; reflexivity).
  assert (Hpos : 0 < IZR (2 ^ 53)) by (apply IZR_lt; reflexivity).
  rewrite Rinv_mult. pose proof (Rinv_0_lt_compat _ Hpos). lra.
Qed.

(** The steps of [get_filter_size] for a positive item count and a
    binary64 probability below 1: the three rounded values, their signs,
    and the result according to which of them overflows. *)
Lemma filter_size_steps (n : Z) (p : R) :
  (0 < n)%Z ->
  0 < p <= 1 - / 2 ^ 53 ->
  let fn := fl plat (IZR n) in
  let y := fl plat (fn * libm_log plat p) in
  let z := fl plat (y / denominator plat) in
  1 <= fn
  /\ fn * libm_log plat p * (1001 / 1000) <= y <= - / 2 ^ 53 * (998 / 1000)
  /\ 0 < z <= y / denominator plat * (1001 / 1000)
  /\ get_filter_size plat n (Finite p)
     = (if overflows fn then SysExit OverflowError
        else if overflows y then SysExit OverflowError
        else if overflows z then SysExit OverflowError
        else Returned (Zceil z)).
Proof.
  intros Hn [Hp0 Hp1] fn y z.
  assert (Heps : 0 < / 2 ^ 53) by (apply Rinv_0_lt_compat, pow_lt; lra).
  pose proof tiny_53 as Htiny.
  assert (Hfn : 1 <= fn).
  { unfold fn. rewrite <- (fl_1 plat Hsound). apply (fl_monotone plat Hsound).
    apply IZR_le. lia. }
  pose proof (log_close_neg plat Hsound p Hp0 ltac:(lra)) as Hlog.
  pose proof (ln_le_tangent p Hp0) as Htan.
  set (lp := libm_log plat p) in *.
  assert (Hlp : lp <= - / 2 ^ 53 * (999 / 1000)) by lra.
  assert (Hx : fn * lp <= - / 2 ^ 53 * (999 / 1000)) by nra.
  pose proof (fl_close_neg plat Hsound (fn * lp) ltac:(lra)) as Hy.
  fold y in Hy.
  pose proof (denominator_bounds plat Hsound) as Hd.
  assert (Hyneg : y <= - / 2 ^ 53 * (998 / 1000)) by nra.
  set (D := denominator plat) in *.
  assert (HinvD : / 14 * 10 <= / - D).
  { replace (/ 14 * 10) with (/ (14 / 10)) by (field; lra).
    apply Rinv_le_contravar; lra. }
  assert (Hquot : y / D = - y * / - D) by (field; lra).
  assert (Hq : / IZR (2 ^ 60) <= y / D) by (rewrite Hquot; nra).
  assert (Hqpos : 0 < / IZR (2 ^ 60))
    by (apply Rinv_0_lt_compat, IZR_lt; reflexivity).
  pose proof (fl_close_pos plat Hsound (y / D) Hq) as Hz. fold z in Hz.
  assert (Hzpos : 0 < z) by nra.
  split; [exact Hfn |]. split; [lra |]. split; [lra |].
  rewrite (get_filter_size_finite plat Hsound) by exact Hp0.
  unfold int_to_float. fold fn. destruct (overflows fn); [reflexivity |].
  cbn [obind]. unfold float_mul, finish. fold lp. fold y.
  destruct (overflows y).
  - rewrite is_negative_true by lra. unfold float_truediv. fold D.
    rewrite is_zero_false by lra. reflexivity.
  - unfold float_truediv. fold D. rewrite is_zero_false by lra. cbn [obind].
    unfold finish. fold z. destruct (overflows z); reflexivity.
Qed.

(** For a positive item count and a binary64 probability below 1 the
    size, when one is returned, is positive; nothing but the overflow of
    the float arithmetic keeps it from being returned. *)
Lemma filter_size_valid (n : Z) (p : R) :
  (0 < n)%Z ->
  0 < p <= 1 - / 2 ^ 53 ->
  get_filter_size plat n (Finite p) = SysExit OverflowError
  \/ exists size, get_filter_size plat n (Finite p) = Returned size /\ (0 < size)%Z.
Proof.
  intros Hn Hp.
  destruct (filter_size_steps n p Hn Hp) as (_ & _ & [Hz _] & ->).
  destruct (overflows _); [left; reflexivity |].
  destruct (overflows _); [left; reflexivity |].
  destruct (overflows _); [left; reflexivity |].
  right. eexists. split; [reflexivity |]. apply Zceil_pos. exact Hz.
Qed.

(** The hash count is the rounding of the rounded product and nothing
    more; with a positive item count it is not negative. *)
Lemma hash_count_nonneg (n size : Z) :
  (0 < n)%Z ->
  (0 <= size)%Z ->
  get_hash_count plat n size = SysExit OverflowError
  \/ (get_hash_count plat n size
      = Returned (py_round (fl plat (fl plat (IZR size / IZR n) * log_2 plat)))
      /\ (0 <= py_round (fl plat (fl plat (IZR size / IZR n) * log_2 plat)))%Z).
Proof.
  intros Hn Hsize. rewrite (get_hash_count_nonzero plat) by lia.
  destruct (overflows (fl plat (IZR size / IZR n))); [left; reflexivity |].
  assert (Hn' : 0 < IZR n) by (apply IZR_lt; exact Hn).
  assert (Hs' : 0 <= IZR size) by (apply IZR_le; exact Hsize).
  assert (Hratio : 0 <= IZR size / IZR n).
  { apply Rmult_le_pos; [exact Hs' |]. left. apply Rinv_0_lt_compat. exact Hn'. }
  pose proof (fl_nonneg plat Hsound _ Hratio) as Hr.
  pose proof (log_2_bounds plat Hsound) as Hl2.
  set (r := fl plat (IZR size / IZR n)) in *.
  assert (Hprod : 0 <= r * log_2 plat) by (apply Rmult_le_pos; lra).
  pose proof (fl_nonneg plat Hsound _ Hprod) as Hw.
  unfold finish. destruct (overflows (fl plat (r * log_2 plat)));
    cbn [builtin_round catch_exit].
  - left. reflexivity.
  - right. split; [reflexivity |]. apply py_round_nonneg. exact Hw.
Qed.

End CapacityBounds.

Section CapacityReturns.

Local Open Scope R_scope.

Variable plat : Platform.
Hypothesis Hsound : sound plat.

Lemma two_pow_53_pos : 0 < IZR (2 ^ 53).
Proof. apply IZR_lt. reflexivity. Qed.

Lemma two_pow_70_split : IZR (2 ^ 70) = IZR (2 ^ 53) * 131072.
Proof. rewrite <- mult_IZR. reflexivity. Qed.

Lemma two_pow_60_split : IZR (2 ^ 60) = IZR (2 ^ 53) * 128.
Proof. rewrite <- mult_IZR. reflexivity. Qed.

(** Rounding a result between 0 and [B] gives at most a little more. *)
Lemma fl_upper (x B : R) :
  0 <= x <= B -> 0 <= fl plat x <= B * (1001 / 1000) + 1.
Proof.
  intros [Hx HB]. split; [apply (fl_nonneg plat Hsound); exact Hx |].
  destruct (Rle_dec (/ IZR (2 ^ 60)) x) as [Hbig | Hsmall].
  - pose proof (fl_close_pos plat Hsound x Hbig). lra.
  - assert (Hle : x <= 1).
    { pose proof two_pow_53_pos. rewrite two_pow_60_split in Hsmall.
      assert (/ (IZR (2 ^ 53) * 128) <= / 1)
        by (apply Rinv_le_contravar; nra).
      rewrite Rinv_1 in *.
      lra. }
    pose proof (fl_monotone plat Hsound x 1 Hle) as Hm.
    rewrite (fl_1 plat Hsound) in Hm. lra.
Qed.

Lemma fl_upper_tight (x B : R) :
  0 <= x <= B -> / IZR (2 ^ 60) <= B -> 0 <= fl plat x <= B * (1001 / 1000).
Proof.
  intros [Hx HB] Hbig. split; [apply (fl_nonneg plat Hsound); exact Hx |].
  pose proof (fl_monotone plat Hsound x B HB).
  pose proof (fl_close_pos plat Hsound B Hbig). lra.
Qed.

Lemma two_pow_53_ge : 1 <= IZR (2 ^ 53).
Proof. apply IZR_le. vm_compute. discriminate. Qed.

Lemma two_pow_60_inv : / IZR (2 ^ 60) <= 1 / 1000.
Proof.
  replace (1 / 1000) with (/ 1000) by lra. apply Rinv_le_contravar; [lra |].
  apply IZR_le. vm_compute. discriminate.
Qed.

Lemma ln_smallest : - 1074 <= ln (/ 2 ^ 1074).
Proof.
  rewrite ln_Rinv by (apply pow_lt; lra). rewrite ln_pow by lra.
  rewrite INR_IZR_INZ. change (Z.of_nat 1074) with 1074%Z.
  pose proof ln_2_lt_1. pose proof ln_2_gt_half. nra.
Qed.

(** With at most [2^53] expected items and a positive binary64
    probability below 1 nothing overflows: the size is returned. *)
Lemma filter_size_returns (n : Z) (p : R) :
  (0 < n <= 2 ^ 53)%Z ->
  / 2 ^ 1074 <= p <= 1 - / 2 ^ 53 ->
  exists size,
    get_filter_size plat n (Finite p) = Returned size
    /\ (0 < size)%Z /\ IZR size <= IZR (2 ^ 53) * 4200.
Proof.
  intros [Hn0 Hn1] [Hp0 Hp1].
  assert (Hsmallest : 0 < / 2 ^ 1074) by (apply Rinv_0_lt_compat, pow_lt; lra).
  assert (Hppos : 0 < p) by lra.
  assert (Heps : 0 < / 2 ^ 53) by (apply Rinv_0_lt_compat, pow_lt; lra).
  destruct (filter_size_steps plat Hsound n p Hn0 (conj Hppos Hp1))
    as (Hfn & Hy & Hz & ->).
  pose proof two_pow_53_pos as H53. pose proof two_pow_70_split as H70.
  assert (Hfl : fl plat (IZR n) = IZR n) by (apply (fl_integer plat Hsound); lia).
  rewrite Hfl in *.
  assert (HnB : IZR n <= IZR (2 ^ 53)) by (apply IZR_le; exact Hn1).
  pose proof (log_close_neg plat Hsound p Hppos ltac:(lra)) as Hlog.
  pose proof (ln_monotone _ _ Hsmallest Hp0) as Hmono.
  pose proof ln_smallest as Hlow.
  pose proof (ln_neg p Hppos ltac:(lra)) as Hlnneg.
  set (lp := libm_log plat p) in *.
  assert (Hlp : - 1076 <= lp <= 0) by lra.
  assert (Hx : - (IZR (2 ^ 53) * 1076) <= IZR n * lp) by nra.
  set (y := fl plat (IZR n * lp)) in *.
  assert (Hylow : - (IZR (2 ^ 53) * 1078) <= y) by nra.
  pose proof (denominator_bounds plat Hsound) as Hd.
  set (D := denominator plat) in *.
  assert (HinvD : 0 < / - D <= 100 / 26).
  { split; [apply Rinv_0_lt_compat; lra |].
    replace (100 / 26) with (/ (26 / 100)) by (field; lra).
    apply Rinv_le_contravar; lra. }
  assert (Hquot : y / D = - y * / - D) by (field; lra).
  assert (Hq : y / D <= IZR (2 ^ 53) * 4147) by (rewrite Hquot; nra).
  set (z := fl plat (y / D)) in *.
  assert (Hzup : z <= IZR (2 ^ 53) * 4152) by nra.
  rewrite (overflows_small (IZR n)) by (split_abs; nra).
  rewrite (overflows_small y) by (split_abs; nra).
  rewrite (overflows_small z) by (split_abs; nra).
  eexists. split; [reflexivity |]. split; [apply Zceil_pos; lra |].
  pose proof (Zceil_bound z). nra.
Qed.

(** And then the hash count is returned too. *)
Lemma hash_count_returns (n size : Z) :
  (0 < n)%Z ->
  (0 <= size)%Z ->
  IZR size <= IZR (2 ^ 53) * 4200 ->
  get_hash_count plat n size
  = Returned (py_round (fl plat (fl plat (IZR size / IZR n) * log_2 plat))).
Proof.
  intros Hn Hsize Hbound. rewrite (get_hash_count_nonzero plat) by lia.
  pose proof two_pow_53_pos as H53. pose proof two_pow_70_split as H70.
  assert (Hn' : 1 <= IZR n) by (apply IZR_le; lia).
  assert (Hs' : 0 <= IZR size) by (apply IZR_le; exact Hsize).
  assert (Hinv : 0 < / IZR n <= 1).
  { split; [apply Rinv_0_lt_compat; lra |].
    rewrite <- Rinv_1. apply Rinv_le_contravar; lra. }
  assert (Hratio : 0 <= IZR size / IZR n <= IZR (2 ^ 53) * 4200)
    by (unfold Rdiv; split; nra).
  pose proof (fl_upper _ _ Hratio) as Hr.
  set (r := fl plat (IZR size / IZR n)) in *.
  pose proof (log_2_bounds plat Hsound) as Hl2.
  assert (Hprod : 0 <= r * log_2 plat <= IZR (2 ^ 53) * 4205 + 1) by (split; nra).
  pose proof (fl_upper _ _ Hprod) as Hw.
  rewrite (overflows_small r) by (split_abs; nra).
  unfold finish. rewrite overflows_small by (split_abs; nra).
  reflexivity.
Qed.

End CapacityReturns.

Section CapacityClaim.

Local Open Scope R_scope.

Variable plat : Platform.
Hypothesis Hsound : sound plat.

(** C3, as the code has it.  For [n >= 1] and a binary64 probability
    [0 < p < 1] (so [p <= 1 - 2^-53]) the size, when it is returned, is
    positive, and the number of hash rounds, when it is returned, is the
    rounding of [size / n * log(2)] as the floats give it, nothing more:
    it is not negative and there is no lower clamp.  Either function
    fails only by logging an [OverflowError] and exiting; neither does for
    [n <= 2^53] and [p >= 2^-1074]. *)
Theorem capacity_valid (n : Z) (p : R) :
  (0 < n)%Z ->
  0 < p <= 1 - / 2 ^ 53 ->
  (get_filter_size plat n (Finite p) = SysExit OverflowError
   \/ exists size,
        get_filter_size plat n (Finite p) = Returned size /\ (0 < size)%Z)
  /\ (forall size,
        (0 <= size)%Z ->
        get_hash_count plat n size = SysExit OverflowError
        \/ (get_hash_count plat n size
            = Returned (py_round (fl plat (fl plat (IZR size / IZR n) * log_2 plat)))
            /\ (0 <= py_round
                       (fl plat (fl plat (IZR size / IZR n) * log_2 plat)))%Z))
  /\ ((n <= 2 ^ 53)%Z ->
      / 2 ^ 1074 <= p ->
      exists size rounds,
        get_filter_size plat n (Finite p) = Returned size
        /\ (0 < size)%Z
        /\ get_hash_count plat n size = Returned rounds
        /\ (0 <= rounds)%Z).
Proof.
  intros Hn Hp. split; [apply (filter_size_valid plat Hsound); assumption |].
  split; [intros size Hsize; apply (hash_count_nonneg plat Hsound); assumption |].
  intros Hn53 Hpmin.
  destruct (filter_size_returns plat Hsound n p (conj Hn Hn53)
              (conj Hpmin (proj2 Hp))) as (size & Hsize & Hpos & Hbound).
  exists size. eexists. split; [exact Hsize |]. split; [exact Hpos |].
  split; [apply (hash_count_returns plat Hsound); (assumption || lia) |].
  destruct (hash_count_nonneg plat Hsound n size Hn ltac:(lia)) as [Hover | [_ Hge]].
  - rewrite (hash_count_returns plat Hsound) in Hover by (assumption || lia).
    discriminate.
  - exact Hge.
Qed.

(** On every sound platform 100 expected items at probability 0.9 give a
    positive size and no hash round at all. *)
Lemma hash_count_zero_example :
  exists size,
    get_filter_size plat 100 (Finite (9 / 10)) = Returned size
    /\ (0 < size)%Z
    /\ get_hash_count plat 100 size = Returned 0%Z.
Proof.
  assert (Heps : 0 < / 2 ^ 53 <= / 1000).
  { split; [apply Rinv_0_lt_compat, pow_lt; lra |].
    apply (inv_pow2_le 53 1000). vm_compute. split; [reflexivity | discriminate]. }
  assert (Hp : 0 < 9 / 10 <= 1 - / 2 ^ 53) by lra.
  destruct (filter_size_steps plat Hsound 100 (9 / 10) ltac:(lia) Hp)
    as (_ & Hy & Hz & Hsize).
  assert (Hfl : fl plat 100 = 100)
    by (apply (fl_integer plat Hsound 100); vm_compute; discriminate).
  rewrite Hfl in *.
  pose proof (log_close_neg plat Hsound (9 / 10) ltac:(lra) ltac:(lra)) as Hlog.
  pose proof (ln_ge_cotangent (9 / 10) ltac:(lra)) as Hcot.
  pose proof (ln_le_tangent (9 / 10) ltac:(lra)) as Htan.
  set (lp := libm_log plat (9 / 10)) in *.
  assert (Hlp : - (112 / 1000) <= lp <= 0) by lra.
  set (y := fl plat (100 * lp)) in *.
  assert (Hylow : - (1122 / 100) <= y <= 0) by lra.
  pose proof (denominator_bounds plat Hsound) as Hd.
  set (D := denominator plat) in *.
  assert (HinvD : 0 < / - D <= 100 / 26).
  { split; [apply Rinv_0_lt_compat; lra |].
    replace (100 / 26) with (/ (26 / 100)) by (field; lra).
    apply Rinv_le_contravar; lra. }
  assert (Hquot : y / D = - y * / - D) by (field; lra).
  assert (Hq : y / D <= 432 / 10) by (rewrite Hquot; nra).
  set (z := fl plat (y / D)) in *.
  assert (Hzup : 0 < z <= 433 / 10) by lra.
  pose proof two_pow_70 as H70.
  rewrite (overflows_small 100) in Hsize by (split_abs; lra).
  rewrite (overflows_small y) in Hsize by (split_abs; lra).
  rewrite (overflows_small z) in Hsize by (split_abs; lra).
  exists (Zceil z). split; [exact Hsize |].
  split; [apply Zceil_pos; lra |].
  pose proof (Zceil_bound z) as Hceil.
  assert (Hcpos : (0 < Zceil z)%Z) by (apply Zceil_pos; lra).
  assert (Hs0 : 1 <= IZR (Zceil z)) by (apply IZR_le; lia).
  assert (Hratio : 0 <= IZR (Zceil z) / 100 <= 443 / 1000) by lra.
  pose proof (two_pow_53_ge) as H53. pose proof two_pow_60_inv as H60.
  rewrite (hash_count_returns plat Hsound) by (try lia; nra).
  f_equal. apply py_round_small.
  pose proof (fl_upper_tight plat Hsound _ _ Hratio ltac:(lra)) as Hr.
  set (r := fl plat (IZR (Zceil z) / 100)) in *.
  pose proof (log_2_bounds plat Hsound) as Hl2.
  assert (Hprod : 0 <= r * log_2 plat <= 334 / 1000) by (split; nra).
  pose proof (fl_upper_tight plat Hsound _ _ Hprod ltac:(lra)). lra.
Qed.

End CapacityClaim.

(** Exact arithmetic shows C3 as stated to fail: [get_hash_count] has no
    lower clamp.  For 100 expected items at probability 0.9 the size is
    positive and the number of hash rounds is 0 (and so it is on every
    sound platform, [hash_count_zero_example]). *)
Lemma hash_count_not_clamped :
  exists size,
    get_filter_size exact 100 (Finite (9 / 10)) = Returned size
    /\ 0 < size
    /\ get_hash_count exact 100 size = Returned 0.
Proof. apply hash_count_zero_example. exact exact_sound. Qed.

Lemma inv_pow53_small : (/ 2 ^ 53 <= 1 / 1000)%R.
Proof.
  replace (1 / 1000)%R with (/ 1000)%R by lra.
  apply (inv_pow2_le 53 1000). vm_compute. split; [reflexivity | discriminate].
Qed.

Lemma inv_pow1074_small : (0 < / 2 ^ 1074 <= 1 / 1000)%R.
Proof.
  split; [apply Rinv_0_lt_compat, pow_lt; lra |].
  replace (1 / 1000)%R with (/ 1000)%R by lra.
  apply (inv_pow2_le 1074 1000). vm_compute. split; [reflexivity | discriminate].
Qed.

(** One item at probability one half satisfies the hypotheses. *)
Lemma capacity_valid_witness :
  (get_filter_size exact 1 (Finite (1 / 2)) = SysExit OverflowError
   \/ exists size,
        get_filter_size exact 1 (Finite (1 / 2)) = Returned size /\ 0 < size)
  /\ (forall size,
        0 <= size ->
        get_hash_count exact 1 size = SysExit OverflowError
        \/ (get_hash_count exact 1 size
            = Returned (py_round (fl exact (fl exact (IZR size / IZR 1)
                                            * log_2 exact)))
            /\ 0 <= py_round (fl exact (fl exact (IZR size / IZR 1)
                                        * log_2 exact))))
  /\ (1 <= 2 ^ 53 ->
      (/ 2 ^ 1074 <= 1 / 2)%R ->
      exists size rounds,
        get_filter_size exact 1 (Finite (1 / 2)) = Returned size
        /\ 0 < size
        /\ get_hash_count exact 1 size = Returned rounds
        /\ 0 <= rounds).
Proof.
  apply (capacity_valid exact exact_sound 1 (1 / 2)).
  - lia.
  - pose proof inv_pow53_small. lra.
Defined.

(** ** Construction outside the documented domain *)

Section Outcomes.

Local Open Scope R_scope.

Variable plat : Platform.
Hypothesis Hsound : sound plat.

Lemma get_filter_size_after_log (items : Z) (prob log_prob : pyfloat) :
  math_log plat prob = Returned log_prob ->
  get_filter_size plat items prob
  = catch_exit
      (do items_float <- int_to_float plat items;
       do size <- float_truediv plat (float_mul plat items_float log_prob)
                    (Finite (denominator plat));
       math_ceil size)%outcome.
Proof.
  intros Hlog. unfold get_filter_size. rewrite Hlog.
  cbn [obind]. destruct (int_to_float plat items) as [f | e | e];
    cbn [obind]; try reflexivity.
  pose proof (denominator_computed plat Hsound) as Hd.
  destruct (math_log plat (Finite 2)) as [l2 | e | e]; cbn [obind] in *;
    try discriminate.
  destruct (float_pow2 plat l2) as [pw | e | e]; cbn [obind] in *; try discriminate.
  destruct (float_truediv plat (Finite 1) pw) as [inv | e | e]; cbn [obind] in *;
    try discriminate.
  rewrite Hd. reflexivity.
Qed.

Lemma denominator_nonzero : is_zero (denominator plat) = false.
Proof.
  pose proof (denominator_bounds plat Hsound). apply is_zero_false. lra.
Qed.

(** With a positive finite probability the size is the ceiling of the
    twice rounded quotient, unless a step overflows. *)
Lemma filter_size_outcome (items : Z) (p : R) :
  0 < p ->
  get_filter_size plat items (Finite p) = SysExit OverflowError
  \/ get_filter_size plat items (Finite p)
     = Returned
         (Zceil (fl plat (fl plat (fl plat (IZR items) * libm_log plat p)
                          / denominator plat))).
Proof.
  intros Hp. rewrite (get_filter_size_finite plat Hsound) by exact Hp.
  unfold int_to_float. destruct (overflows (fl plat (IZR items)));
    [left; reflexivity |].
  cbn [obind]. unfold float_mul, finish.
  destruct (overflows (fl plat (fl plat (IZR items) * libm_log plat p))).
  - left. unfold float_truediv. rewrite denominator_nonzero. reflexivity.
  - unfold float_truediv. rewrite denominator_nonzero. cbn [obind].
    unfold finish. destruct (overflows _); [left | right]; reflexivity.
Qed.

Lemma hash_count_outcome (items size : Z) :
  items <> 0%Z ->
  get_hash_count plat items size = SysExit OverflowError
  \/ get_hash_count plat items size
     = Returned (py_round (fl plat (fl plat (IZR size / IZR items) * log_2 plat))).
Proof.
  intros Hn. rewrite (get_hash_count_nonzero plat) by exact Hn.
  destruct (overflows (fl plat (IZR size / IZR items))); [left; reflexivity |].
  unfold finish. destruct (overflows _); [left | right]; reflexivity.
Qed.

(** Outside the domain a size that is not negative comes with a hash
    count that is not positive. *)
Lemma out_of_domain_rounds (items : Z) (p : R) :
  (items <= 0)%Z \/ p <= 0 \/ 1 <= p ->
  0 < p -> items <> 0%Z ->
  let size := Zceil (fl plat (fl plat (fl plat (IZR items) * libm_log plat p)
                              / denominator plat)) in
  (0 <= size)%Z ->
  (py_round (fl plat (fl plat (IZR size / IZR items) * log_2 plat)) <= 0)%Z.
Proof.
  intros Hdom Hp Hn size Hsize. apply py_round_nonpos.
  pose proof (log_2_bounds plat Hsound) as Hl2.
  pose proof (denominator_bounds plat Hsound) as Hd.
  destruct (Z.eq_dec size 0%Z) as [-> | Hne].
  - unfold Rdiv. rewrite Rmult_0_l, (fl_0 plat Hsound), Rmult_0_l.
    rewrite (fl_0 plat Hsound). lra.
  - set (y := fl plat (fl plat (IZR items) * libm_log plat p)) in *.
    assert (Hz : 0 < fl plat (y / denominator plat))
      by (apply Zceil_pos_inv; fold size; lia).
    assert (Hq : 0 < y / denominator plat).
    { destruct (Rlt_dec 0 (y / denominator plat)) as [Hlt | Hge]; [exact Hlt |].
      apply Rnot_lt_le in Hge.
      pose proof (fl_nonpos plat Hsound (y / denominator plat) Hge). lra. }
    assert (Hy : y < 0).
    { assert (Heq : y = y / denominator plat * denominator plat) by (field; lra).
      nra. }
    assert (Hx : fl plat (IZR items) * libm_log plat p < 0).
    { destruct (Rlt_dec (fl plat (IZR items) * libm_log plat p) 0) as [Hlt | Hge];
        [exact Hlt |].
      apply Rnot_lt_le in Hge.
      pose proof (fl_nonneg plat Hsound _ Hge) as Hnn. fold y in Hnn. lra. }
    destruct (Z.lt_trichotomy items 0%Z) as [Hlt | [Heq | Hgt]]; [| contradiction |].
    + assert (Hi : IZR items < 0) by (apply IZR_lt; exact Hlt).
      assert (Hs : 0 <= IZR size) by (apply IZR_le; exact Hsize).
      pose proof (Rinv_lt_0_compat _ Hi) as Hinv.
      assert (Hratio : IZR size / IZR items <= 0) by (unfold Rdiv; nra).
      pose proof (fl_nonpos plat Hsound _ Hratio) as Hr.
      apply (fl_nonpos plat Hsound). nra.
    + assert (Hi : 0 <= IZR items) by (apply IZR_le; lia).
      pose proof (fl_nonneg plat Hsound _ Hi) as Hfn.
      assert (H1p : 1 <= p) by (destruct Hdom as [? | [? | ?]]; [lia | lra | assumption]).
      pose proof (log_close_pos plat Hsound p H1p) as Hlog.
      pose proof (ln_nonneg p H1p). nra.
Qed.

End Outcomes.

Section Construction.

Local Open Scope R_scope.

Variable plat : Platform.
Hypothesis Hsound : sound plat.

(** A probability that is an infinity or NaN never yields a filter. *)
Lemma init_not_finite (items : Z) (q : pyfloat) (case : bool) :
  (forall x, q <> Finite x) ->
  __init__ plat items q case = SysExit ValueError
  \/ __init__ plat items q case = SysExit OverflowError.
Proof.
  intros Hq. unfold __init__.
  destruct q as [x | [|] |]; [destruct (Hq x); reflexivity | | |].
  - left. reflexivity.
  - rewrite (get_filter_size_after_log plat Hsound _ _ (Infinity false))
      by reflexivity.
    unfold int_to_float. destruct (overflows _); [right; reflexivity |].
    cbn [obind]. unfold float_mul. unfold float_truediv.
    rewrite (denominator_nonzero plat Hsound).
    destruct (is_zero _); cbn [obind]; [left | right]; reflexivity.
  - rewrite (get_filter_size_after_log plat Hsound _ _ NaN) by reflexivity.
    unfold int_to_float. destruct (overflows _); [right; reflexivity |].
    cbn [obind]. unfold float_mul, float_truediv.
    rewrite (denominator_nonzero plat Hsound). left. reflexivity.
Qed.

(** C4, as the code has it.  The constructor checks nothing and knows no
    [InvalidParameter].  Outside the domain it stops by logging and
    [sys.exit(1)] when [p <= 0] (the logarithm) or [n = 0] (the division)
    or when the float arithmetic overflows; otherwise a negative size
    makes [bitarray] raise [ValueError] ([OverflowError] below
    [-sys.maxsize - 1]), and a size that is not negative is accepted with
    a hash count that is not positive, unless [bitarray] cannot make an
    array that long ([OverflowError] above [sys.maxsize], [MemoryError]).
    A probability that is an infinity or NaN ends in the same handlers. *)
Theorem init_out_of_domain (items : Z) (p : R) (case : bool) :
  (items <= 0)%Z \/ p <= 0 \/ 1 <= p ->
  (p <= 0 -> __init__ plat items (Finite p) case = SysExit ValueError)
  /\ (0 < p -> items = 0%Z ->
      __init__ plat items (Finite p) case = SysExit ZeroDivisionError)
  /\ (0 < p -> items <> 0%Z ->
      __init__ plat items (Finite p) case = SysExit OverflowError
      \/ exists size rounds,
           get_filter_size plat items (Finite p) = Returned size
           /\ get_hash_count plat items size = Returned rounds
           /\ ((size < 0)%Z ->
               __init__ plat items (Finite p) case
               = if (size <? - maxsize plat - 1)%Z then Raised OverflowError
                 else Raised ValueError)
           /\ ((0 <= size)%Z ->
               (rounds <= 0)%Z
               /\ __init__ plat items (Finite p) case
                  = if (maxsize plat <? size)%Z then Raised OverflowError
                    else if (max_bits plat <? size)%Z then Raised MemoryError
                    else Returned (mkBloomFilter items (Finite p) case 0 false
                                     size rounds (repeat false (Z.to_nat size)))))
  /\ (forall q,
        (forall x, q <> Finite x) ->
        __init__ plat items q case = SysExit ValueError
        \/ __init__ plat items q case = SysExit OverflowError).
Proof.
  intros Hdom. split; [| split; [| split]].
  - intros Hp. unfold __init__, get_filter_size.
    rewrite (math_log_nonpos plat) by exact Hp. reflexivity.
  - intros Hp ->. unfold __init__.
    rewrite (get_filter_size_finite plat Hsound) by exact Hp.
    unfold int_to_float. rewrite (fl_0 plat Hsound).
    rewrite overflows_small by (rewrite Rabs_R0; apply IZR_le; vm_compute; discriminate).
    cbn [obind]. unfold float_mul. rewrite Rmult_0_l.
    unfold finish. rewrite (fl_0 plat Hsound).
    rewrite overflows_small by (rewrite Rabs_R0; apply IZR_le; vm_compute; discriminate).
    unfold float_truediv. rewrite (denominator_nonzero plat Hsound).
    cbn [obind]. unfold Rdiv. rewrite Rmult_0_l. unfold finish.
    rewrite (fl_0 plat Hsound).
    rewrite overflows_small by (rewrite Rabs_R0; apply IZR_le; vm_compute; discriminate).
    cbn [math_ceil catch_exit obind]. rewrite Zceil_0. reflexivity.
  - intros Hp Hn. unfold __init__.
    destruct (filter_size_outcome plat Hsound items p Hp) as [-> | Hsize];
      [left; reflexivity |].
    rewrite Hsize. cbn [obind].
    set (size := Zceil _) in *.
    destruct (hash_count_outcome plat items size Hn) as [-> | Hrounds];
      [left; reflexivity |].
    right. rewrite Hrounds. cbn [obind].
    exists size. eexists. split; [reflexivity |]. split; [exact Hrounds |].
    pose proof (max_bits_range plat Hsound) as Hmax.
    unfold bitarray. split.
    + intros Hneg. destruct (Z.ltb_spec size (- maxsize plat - 1)%Z);
        [reflexivity |].
      destruct (Z.ltb_spec (maxsize plat) size); [lia |].
      destruct (Z.ltb_spec size 0%Z); [reflexivity | lia].
    + intros Hpos. split.
      * apply (out_of_domain_rounds plat Hsound items p); assumption.
      * destruct (Z.ltb_spec size (- maxsize plat - 1)%Z); [lia |].
        destruct (maxsize plat <? size)%Z; [reflexivity |]. cbn [orb].
        destruct (Z.ltb_spec size 0%Z); [lia |].
        destruct (max_bits plat <? size)%Z; [reflexivity |].
        cbn [obind]. unfold setall. rewrite repeat_length. reflexivity.
  - intros q. apply init_not_finite.
Qed.

(** [BloomFilter(1, 1.0)]: accepted, with no bit and no hash round. *)
Lemma init_probability_one (case : bool) :
  __init__ plat 1 (Finite 1) case
  = Returned (mkBloomFilter 1 (Finite 1) case 0 false 0 0 []).
Proof.
  assert (Hlog : libm_log plat 1 = 0).
  { pose proof (log_error plat Hsound 1 ltac:(lra)) as He.
    rewrite ln_1, Rabs_R0 in He. unfold Rdiv in He. rewrite Rmult_0_l in He.
    rewrite Rminus_0_r in He. pose proof (Rabs_pos (libm_log plat 1)).
    destruct (Req_dec (libm_log plat 1) 0) as [H0 | Hne]; [exact H0 |].
    pose proof (Rabs_pos_lt _ Hne). lra. }
  assert (Hsmall : overflows 0 = false)
    by (apply overflows_small; rewrite Rabs_R0; apply IZR_le;
        vm_compute; discriminate).
  unfold __init__. rewrite (get_filter_size_finite plat Hsound) by lra.
  unfold int_to_float. rewrite (fl_1 plat Hsound).
  rewrite overflows_small
    by (rewrite Rabs_R1; apply IZR_le; vm_compute; discriminate).
  cbn [obind]. unfold float_mul. rewrite Hlog, Rmult_0_r.
  unfold finish. rewrite (fl_0 plat Hsound), Hsmall.
  unfold float_truediv. rewrite (denominator_nonzero plat Hsound).
  cbn [obind]. unfold Rdiv. rewrite Rmult_0_l. unfold finish.
  rewrite (fl_0 plat Hsound), Hsmall.
  cbn [math_ceil catch_exit obind]. rewrite Zceil_0.
  rewrite (get_hash_count_nonzero plat) by lia.
  unfold Rdiv. rewrite Rmult_0_l, (fl_0 plat Hsound), Hsmall, Rmult_0_l.
  unfold finish. rewrite (fl_0 plat Hsound), Hsmall.
  cbn [builtin_round catch_exit obind]. rewrite py_round_small by lra.
  unfold bitarray.
  pose proof (max_bits_range plat Hsound) as Hmax.
  destruct (Z.ltb_spec 0 (- maxsize plat - 1)%Z); [lia |].
  destruct (Z.ltb_spec (maxsize plat) 0%Z); [lia |].
  destruct (Z.ltb_spec (max_bits plat) 0%Z); [lia | reflexivity].
Qed.

End Construction.

(** C4 as stated fails: probability 1 is accepted, and the filter has
    neither bits nor hash rounds (with exact arithmetic, and on every
    sound platform, [init_probability_one]). *)
Lemma init_accepts_probability_one :
  exists self,
    __init__ exact 1 (Finite 1) false = Returned self
    /\ filter_size self = 0 /\ hash_count self = 0
    /\ bloom_bitarray self = [].
Proof.
  eexists. rewrite (init_probability_one exact exact_sound). repeat split.
Qed.

(** Probability 1 is outside the domain. *)
Lemma init_out_of_domain_witness :
  ((1 <= 0)%R -> __init__ exact 1 (Finite 1) true = SysExit ValueError)
  /\ ((0 < 1)%R -> 1 = 0 ->
      __init__ exact 1 (Finite 1) true = SysExit ZeroDivisionError)
  /\ ((0 < 1)%R -> 1 <> 0 ->
      __init__ exact 1 (Finite 1) true = SysExit OverflowError
      \/ exists size rounds,
           get_filter_size exact 1 (Finite 1) = Returned size
           /\ get_hash_count exact 1 size = Returned rounds
           /\ (size < 0 ->
               __init__ exact 1 (Finite 1) true
               = if size <? - maxsize exact - 1 then Raised OverflowError
                 else Raised ValueError)
           /\ (0 <= size ->
               rounds <= 0
               /\ __init__ exact 1 (Finite 1) true
                  = if maxsize exact <? size then Raised OverflowError
                    else if max_bits exact <? size then Raised MemoryError
                    else Returned (mkBloomFilter 1 (Finite 1) true 0 false
                                     size rounds (repeat false (Z.to_nat size)))))
  /\ (forall q,
        (forall x, q <> Finite x) ->
        __init__ exact 1 q true = SysExit ValueError
        \/ __init__ exact 1 q true = SysExit OverflowError).
Proof.
  apply (init_out_of_domain exact exact_sound 1 1 true). right. right. lra.
Defined.

(** ** A constructed filter, and the invariant in every reachable state *)

Section ExactArithmetic.

Local Open Scope R_scope.

Lemma denominator_exact : denominator exact = - (ln 2 * ln 2).
Proof.
  unfold denominator, log_2, exact. cbn [fl libm_log libm_pow2].
  pose proof (exp_pos (ln 2 * ln 2)) as Hpow. fold (Rpower 2 (ln 2)) in Hpow.
  unfold Rdiv. rewrite Rmult_1_l, ln_Rinv by exact Hpow.
  unfold Rpower. rewrite ln_exp. reflexivity.
Qed.

Lemma ln_half : ln (1 / 2) = - ln 2.
Proof. replace (1 / 2) with (/ 2) by lra. apply ln_Rinv. lra. Qed.

(** [BloomFilter(1, 0.5)] with exact arithmetic: two bits, one hash
    round. *)
Lemma init_one_half (case : bool) :
  __init__ exact 1 (Finite (1 / 2)) case
  = Returned (mkBloomFilter 1 (Finite (1 / 2)) case 0 false 2 1 [false; false]).
Proof.
  pose proof inv_pow53_small as H53. pose proof two_pow_70 as H70.
  pose proof ln_2_gt_half as Hlo. pose proof ln_2_lt_3_4 as Hhi.
  assert (Hp : 0 < 1 / 2 <= 1 - / 2 ^ 53) by lra.
  destruct (filter_size_steps exact exact_sound 1 (1 / 2) ltac:(lia) Hp)
    as (_ & _ & _ & Hsize).
  rewrite denominator_exact in Hsize.
  unfold exact in Hsize. cbn [fl libm_log] in Hsize. fold exact in Hsize.
  rewrite ln_half in Hsize.
  assert (Hq : 1 * - ln 2 / - (ln 2 * ln 2) = / ln 2) by (field; lra).
  rewrite Hq in Hsize.
  assert (Hinv : ln 2 * / ln 2 = 1) by (apply Rinv_r; lra).
  assert (Hpos : 0 < / ln 2) by (apply Rinv_0_lt_compat; lra).
  assert (Hrange : 1 < / ln 2 <= 2) by (split; nra).
  rewrite (overflows_small 1) in Hsize by (split_abs; lra).
  rewrite (overflows_small (1 * - ln 2)) in Hsize by (split_abs; lra).
  rewrite (overflows_small (/ ln 2)) in Hsize by (split_abs; lra).
  assert (Hceil : Zceil (/ ln 2) = 2%Z) by (apply Zceil_eq; lra).
  rewrite Hceil in Hsize.
  unfold __init__. rewrite Hsize. cbn [obind].
  rewrite (hash_count_returns exact exact_sound)
    by (try lia; pose proof two_pow_53_ge; lra).
  cbn [obind]. unfold log_2, exact. cbn [fl libm_log].
  assert (Hrounds : py_round (2 / 1 * ln 2) = 1%Z).
  { unfold py_round.
    assert (Hf : Zfloor (2 / 1 * ln 2) = 1%Z) by (apply Zfloor_eq; lra).
    rewrite Hf. destruct (Rlt_dec (2 / 1 * ln 2 - 1) (1 / 2)); [reflexivity | lra]. }
  rewrite Hrounds. reflexivity.
Qed.

End ExactArithmetic.

Lemma init_wf (plat : Platform) (items : Z) (p : pyfloat) (case : bool)
  (self : BloomFilter) :
  sound plat ->
  __init__ plat items p case = Returned self -> wf self.
Proof.
  intros Hsound Hinit.
  destruct (init_inv plat items p case self Hinit)
    as (size & rounds & _ & Hrounds & Hsize & _ & ->).
  unfold wf. cbn. rewrite repeat_length. split; [lia |].
  intros ->. destruct (Z.eq_dec items 0) as [-> | Hn].
  - rewrite get_hash_count_zero in Hrounds. discriminate.
  - destruct (hash_count_outcome plat items 0 Hn) as [Hover | Hret];
      rewrite Hrounds in *; [discriminate |].
    injection Hret as ->. apply py_round_nonpos.
    unfold Rdiv. rewrite Rmult_0_l, (fl_0 plat Hsound), Rmult_0_l.
    rewrite (fl_0 plat Hsound). apply Rle_refl.
Qed.

Lemma add_wf (mmh3_hash64 : string -> option (Z * Z)) (item : pyobj)
  (self : BloomFilter) :
  wf self -> wf (snd (add mmh3_hash64 item self)).
Proof. apply extends_wf, add_extends. Qed.

Lemma bulk_add_wf (mmh3_hash64 : string -> option (Z * Z)) (items : list pyobj)
  (self : BloomFilter) :
  wf self -> wf (snd (bulk_add mmh3_hash64 items self)).
Proof. apply extends_wf, bulk_add_extends. Qed.

Lemma contain_wf (mmh3_hash64 : string -> option (Z * Z)) (item : pyobj)
  (self : BloomFilter) :
  wf self -> wf (snd (contain mmh3_hash64 item self)).
Proof. rewrite contain_state. auto. Qed.

(** ** The theorems at concrete inputs

    A filter of 13 bits and 3 rounds with the stand-in hash: "Foo" hashes
    to (-708, 4) and sets the bits 7, 11 and 2; "foo" hashes to (-676, 4)
    and would need the bits 0, 4 and 8. *)

Lemma contain_iff_all_bits_set_witness :
  (exists answer,
      contain stub_hash64 (PyStr "foo") (added (-708) 4 (fresh false 13 3))
      = (Returned answer, added (-708) 4 (fresh false 13 3))
      /\ (answer = true <->
          forall i, (i < Z.to_nat (hash_count (added (-708) 4 (fresh false 13 3))))%nat ->
            bloom_bitarray (added (-708) 4 (fresh false 13 3))
              !! Z.to_nat ((-676 + Z.of_nat i * 4)
                           mod filter_size (added (-708) 4 (fresh false 13 3)))
            = Some true))
  /\ contain stub_hash64 (PyStr "foo") short_array = (Returned false, short_array).
Proof.
  destruct (contain_iff_all_bits_set stub_hash64 (PyStr "foo") (-676) 4)
    as [Hiff Hshort].
  split.
  - apply Hiff.
    + apply wf_added, wf_fresh. lia.
    + vm_compute. reflexivity.
  - apply (Hshort short_array 1%nat).
    + vm_compute. reflexivity.
    + vm_compute. discriminate.
    + vm_compute. lia.
    + intros k Hk. assert (k = 0%nat) as -> by lia. vm_compute. reflexivity.
    + vm_compute. reflexivity.
Defined.

Lemma positions_in_bounds_witness :
  fst (add_loop 5 (-9223372036854775808) 9223372036854775807 (fresh false 13 3))
  = Returned tt.
Proof.
  assert (Hwf : wf (fresh false 13 3)) by (apply wf_fresh; lia).
  assert (Hsize : 1 <= filter_size (fresh false 13 3)) by (cbn; lia).
  destruct (positions_in_bounds stub_hash64 (fresh false 13 3)
              (-9223372036854775808) 9223372036854775807 Hwf Hsize)
    as (_ & Hadd & _).
  apply Hadd.
Defined.

Lemma add_twice_witness :
  bloom_bitarray
    (snd (add stub_hash64 (PyStr "Foo")
            (snd (add stub_hash64 (PyStr "Foo") (fresh false 13 3)))))
  = bloom_bitarray (snd (add stub_hash64 (PyStr "Foo") (fresh false 13 3)))
  /\ counter
       (snd (add stub_hash64 (PyStr "Foo")
               (snd (add stub_hash64 (PyStr "Foo") (fresh false 13 3)))))
     = 2.
Proof.
  assert (Hwf : wf (fresh false 13 3)) by (apply wf_fresh; lia).
  assert (Hret : fst (add stub_hash64 (PyStr "Foo") (fresh false 13 3)) = Returned tt)
    by (vm_compute; reflexivity).
  destruct (add_twice stub_hash64 (PyStr "Foo") (fresh false 13 3) Hwf Hret)
    as (_ & Hbits & _ & _ & Hcount & _).
  split; [exact Hbits | exact Hcount].
Defined.

(** A batch whose second item has a [__str__] that raises: [add] would
    raise, [bulk_add] logs and exits, and the bits of the first item are
    there. *)
Lemma bulk_add_is_add_each_witness :
  fst (bulk_add stub_hash64
         [PyStr "a"; PyObject (inl RuntimeError); PyStr "b"] (fresh false 13 3))
  = catch_exit
      (fst (add stub_hash64 (PyObject (inl RuntimeError))
              (snd (add stub_hash64 (PyStr "a") (fresh false 13 3)))))
  /\ snd (bulk_add stub_hash64
            [PyStr "a"; PyObject (inl RuntimeError); PyStr "b"] (fresh false 13 3))
     = snd (add stub_hash64 (PyObject (inl RuntimeError))
              (snd (add stub_hash64 (PyStr "a") (fresh false 13 3)))).
Proof.
  destruct (proj2 (bulk_add_is_add_each stub_hash64)
              [PyStr "a"] (PyObject (inl RuntimeError)) [PyStr "b"]
              (fresh false 13 3)
              (snd (add stub_hash64 (PyStr "a") (fresh false 13 3))))
    as (Hstate & Hout & _ & _).
  - vm_compute. reflexivity.
  - intros u. vm_compute. discriminate.
  - cbn [app] in Hstate, Hout. split; [exact Hout | exact Hstate].
Defined.

Lemma bits_never_cleared_witness :
  (forall j, bloom_bitarray
               (mkBloomFilter 1 (Finite (1 / 2)) false 0 false 2 1 [false; false]) !! j
             <> Some true)
  /\ bloom_bitarray
       (snd (add stub_hash64 (PyStr "foo") (added (-708) 4 (fresh false 13 3)))) !! 7%nat
     = Some true.
Proof.
  destruct (bits_never_cleared stub_hash64) as [Hinit Hmono]. split.
  - apply (Hinit exact 1 (Finite (1 / 2)) false _ (init_one_half false)).
  - apply Hmono. vm_compute. reflexivity.
Defined.

Lemma hash_input_asymmetry_witness :
  get_hash stub_hash64 (PyInt 5) false = SysExit TypeError
  /\ PyStr "5" <> PyInt 5
  /\ get_hash stub_hash64 (PyStr "5") false = Returned (-947, 2).
Proof.
  destruct (hash_input_asymmetry stub_hash64) as (_ & _ & _ & Hdiff).
  destruct (Hdiff (PyInt 5) false) as (Hcontain & Hadd).
  - intros s. discriminate.
  - split; [exact Hcontain |].
    destruct (Hadd "5"%string) as (Hneq & Hhash); [vm_compute; reflexivity |].
    split; [exact Hneq |]. rewrite Hhash. vm_compute. reflexivity.
Defined.

(** * Further properties of the methods *)

(** ** Order and number of the bits written *)

Lemma mark_comm (n m : nat) (c h2 c' h2' size : Z) (bits : list bool) :
  mark n c h2 size (mark m c' h2' size bits)
  = mark m c' h2' size (mark n c h2 size bits).
Proof.
  apply list_eq. intros j. rewrite !mark_lookup.
  destruct (bits !! j) as [b |]; cbn; [| reflexivity].
  f_equal. destruct b, (hit c h2 size n j), (hit c' h2' size m j); reflexivity.
Qed.

Lemma ones_insert (bits : list bool) : forall i,
  (ones bits <= ones (<[i := true]> bits) <= S (ones bits))%nat.
Proof.
  induction bits as [| b rest IH]; intros i; [destruct i; cbn; lia |].
  destruct i as [| i].
  - cbn. destruct b; lia.
  - change (<[S i := true]> (b :: rest)) with (b :: <[i := true]> rest).
    cbn [ones]. specialize (IH i). destruct b; lia.
Qed.

Lemma ones_mark (n : nat) : forall c h2 size bits,
  (ones bits <= ones (mark n c h2 size bits) <= ones bits + n)%nat.
Proof.
  induction n as [| n IH]; intros c h2 size bits; cbn [mark]; [lia |].
  specialize (IH (c + h2) h2 size (<[Z.to_nat (c mod size) := true]> bits)).
  pose proof (ones_insert bits (Z.to_nat (c mod size))). lia.
Qed.

Section Composition.

Variable mmh3_hash64 : string -> option (Z * Z).

(** X1.  Insertions commute: inserting [x] then [y] leaves the filter in
    the state that inserting [y] then [x] leaves, bit array and counter. *)
Theorem add_commutes (x y : pyobj) (self : BloomFilter) :
  wf self ->
  fst (add mmh3_hash64 x self) = Returned tt ->
  fst (add mmh3_hash64 y self) = Returned tt ->
  add mmh3_hash64 y (snd (add mmh3_hash64 x self))
  = add mmh3_hash64 x (snd (add mmh3_hash64 y self))
  /\ fst (add mmh3_hash64 y (snd (add mmh3_hash64 x self))) = Returned tt.
Proof.
  intros Hwf Hx Hy.
  destruct (add_cases mmh3_hash64 x self Hwf)
    as [(tx & h1 & h2 & Hsx & Hhx & Hax)
       | [(tx & e & _ & _ & Hexit) | (e & _ & Hexit)]];
    try (rewrite Hexit in Hx; discriminate).
  destruct (add_cases mmh3_hash64 y self Hwf)
    as [(ty & k1 & k2 & Hsy & Hhy & Hay)
       | [(ty & e & _ & _ & Hexit) | (e & _ & Hexit)]];
    try (rewrite Hexit in Hy; discriminate).
  rewrite Hax, Hay. cbn [snd].
  rewrite (add_spec mmh3_hash64 y (added h1 h2 self) ty k1 k2)
    by (try apply wf_added; try exact Hwf; try exact Hsy; destruct self; exact Hhy).
  rewrite (add_spec mmh3_hash64 x (added k1 k2 self) tx h1 h2)
    by (try apply wf_added; try exact Hwf; try exact Hsx; destruct self; exact Hhx).
  split; [| reflexivity]. f_equal.
  destruct self; unfold added, with_counter, with_bits; cbn.
  f_equal. apply mark_comm.
Qed.

(** X2.  One call of [add] on a well-formed filter sets at most
    [hash_count] bits that were not set, however it ends. *)
Theorem add_sets_at_most_rounds (item : pyobj) (self : BloomFilter) :
  wf self ->
  (ones (bloom_bitarray self)
   <= ones (bloom_bitarray (snd (add mmh3_hash64 item self)))
   <= ones (bloom_bitarray self) + Z.to_nat (hash_count self))%nat.
Proof.
  intros Hwf.
  destruct (add_cases mmh3_hash64 item self Hwf)
    as [(text & h1 & h2 & _ & _ & Hadd)
       | [(text & e & _ & _ & Hexit) | (e & _ & Hexit)]].
  - rewrite Hadd. cbn [snd]. destruct self; cbn. apply ones_mark.
  - rewrite Hexit. cbn [snd]. lia.
  - rewrite Hexit. cbn [snd]. lia.
Qed.

(** X3.  [add] on a well-formed filter is all or nothing.  Either it
    returns: then [str(item)] gave a text, [get_hash] of that text gave
    the pair [(h1, h2)], every position of that pair is set and the
    counter is one higher.  Or the hash derivation failed and the process
    exits, or [str(item)] raised and the exception leaves [add]: in both
    cases the filter is untouched. *)
Theorem add_all_or_nothing (item : pyobj) (self : BloomFilter) :
  wf self ->
  (exists text h1 h2,
      str item = Returned text
      /\ get_hash mmh3_hash64 (PyStr text) (case_sensitive self) = Returned (h1, h2)
      /\ add mmh3_hash64 item self = (Returned tt, added h1 h2 self)
      /\ counter (added h1 h2 self) = counter self + 1
      /\ forall i, (i < Z.to_nat (hash_count self))%nat ->
           bloom_bitarray (added h1 h2 self)
             !! Z.to_nat ((h1 + Z.of_nat i * h2) mod filter_size self)
           = Some true)
  \/ (exists text e,
        str item = Returned text
        /\ get_hash mmh3_hash64 (PyStr text) (case_sensitive self) = SysExit e
        /\ add mmh3_hash64 item self = (SysExit e, self))
  \/ (exists e,
        str item = Raised e /\ add mmh3_hash64 item self = (Raised e, self)).
Proof.
  intros Hwf.
  destruct (add_cases mmh3_hash64 item self Hwf)
    as [(text & h1 & h2 & Hstr & Hhash & Hadd) | [Hexit | Hraise]];
    [left | right; left; exact Hexit | right; right; exact Hraise].
  exists text, h1, h2. split; [exact Hstr |]. split; [exact Hhash |].
  split; [exact Hadd |]. split; [destruct self; reflexivity |].
  intros i Hi. pose proof (added_bit_at h1 h2 self i Hwf Hi) as Hbit.
  apply bit_at_lookup in Hbit.
  replace (filter_size (added h1 h2 self)) with (filter_size self) in Hbit
    by (destruct self; reflexivity).
  exact Hbit.
Qed.

End Composition.

(** ** Batches *)

Section Batches.

Variable mmh3_hash64 : string -> option (Z * Z).

(** A batch returned exactly when its loop returned. *)
Lemma bulk_add_returned (items : list pyobj) (self self' : BloomFilter) :
  bulk_add mmh3_hash64 items self = (Returned tt, self') <->
  bulk_add_loop mmh3_hash64 items self = (Returned tt, self').
Proof.
  rewrite bulk_add_unfold.
  destruct (bulk_add_loop mmh3_hash64 items self) as [[[] | e | e] self1];
    cbn [fst snd catch_exit]; split; intros H; try discriminate; exact H.
Qed.

Lemma bulk_add_loop_app (pre post : list pyobj) : forall self,
  fst (bulk_add_loop mmh3_hash64 pre self) = Returned tt ->
  bulk_add_loop mmh3_hash64 (pre ++ post) self
  = bulk_add_loop mmh3_hash64 post (snd (bulk_add_loop mmh3_hash64 pre self)).
Proof.
  induction pre as [| item rest IH]; intros self Hret; [reflexivity |].
  revert Hret. cbn [app bulk_add_loop]. unfold bind.
  destruct (add mmh3_hash64 item self) as [[[] | e | e] self1];
    cbn [fst]; try discriminate.
  apply IH.
Qed.

Lemma covered_same_parameters (items : list pyobj) (self self' : BloomFilter) (j : nat) :
  extends self self' -> covered mmh3_hash64 items self' j <-> covered mmh3_hash64 items self j.
Proof.
  intros (Hs & Hh & Hc & _ & _). unfold covered. rewrite Hs, Hh, Hc. reflexivity.
Qed.

Lemma added_lookup_true (h1 h2 : Z) (self : BloomFilter) (j : nat) :
  wf self ->
  bloom_bitarray (added h1 h2 self) !! j = Some true
  <-> bloom_bitarray self !! j = Some true
      \/ hit h1 h2 (filter_size self) (Z.to_nat (hash_count self)) j = true.
Proof.
  intros Hwf.
  assert (Hbits : bloom_bitarray (added h1 h2 self)
                  = mark (Z.to_nat (hash_count self)) h1 h2 (filter_size self)
                      (bloom_bitarray self)) by (destruct self; reflexivity).
  rewrite Hbits, mark_lookup. split.
  - destruct (bloom_bitarray self !! j) as [b |]; cbn; [| discriminate].
    intros Hb. injection Hb as Hb. apply orb_true_iff in Hb.
    destruct Hb as [-> | Hhit]; auto.
  - intros [Hj | Hhit]; [rewrite Hj; reflexivity |].
    apply hit_true in Hhit. destruct Hhit as (i & Hi & <-).
    destruct (wf_cases self Hwf) as [[Hpos Hlen] | Hzero]; [| lia].
    destruct (lookup_lt_is_Some_2 (bloom_bitarray self)
                (probe h1 h2 (filter_size self) i)) as [b Hb].
    { pose proof (probe_lt h1 h2 (filter_size self) i Hpos). lia. }
    rewrite Hb. cbn. f_equal.
    assert (Hhit : hit h1 h2 (filter_size self) (Z.to_nat (hash_count self))
                     (probe h1 h2 (filter_size self) i) = true)
      by (apply hit_true; eauto).
    rewrite Hhit. apply orb_true_r.
Qed.

Lemma bulk_add_loop_bits (items : list pyobj) : forall self self',
  wf self ->
  bulk_add_loop mmh3_hash64 items self = (Returned tt, self') ->
  forall j,
    bloom_bitarray self' !! j = Some true
    <-> bloom_bitarray self !! j = Some true \/ covered mmh3_hash64 items self j.
Proof.
  induction items as [| item rest IH]; intros self self' Hwf Hrun j.
  - injection Hrun as <-. split; [auto |].
    intros [Hj | (item & text & h1 & h2 & i & [] & _)]. exact Hj.
  - cbn [bulk_add_loop] in Hrun. unfold bind in Hrun.
    destruct (add_cases mmh3_hash64 item self Hwf)
      as [(text & h1 & h2 & Hstr & Hhash & Hadd)
         | [(text & e & _ & _ & Hexit) | (e & _ & Hexit)]];
      try (rewrite Hexit in Hrun; discriminate).
    rewrite Hadd in Hrun.
    rewrite (IH _ _ (wf_added h1 h2 self Hwf) Hrun j).
    rewrite (covered_same_parameters rest self _ j (added_extends h1 h2 self)).
    rewrite (added_lookup_true h1 h2 self j Hwf). split.
    + intros [[Hj | Hhit] | (it & tx & k1 & k2 & i & Hin & Hs & Hk & Hi & Hp)].
      * left. exact Hj.
      * right. apply hit_true in Hhit. destruct Hhit as (i & Hi & Hp).
        exists item, text, h1, h2, i. cbn [In]. auto.
      * right. exists it, tx, k1, k2, i. cbn [In]. auto.
    + intros [Hj | (it & tx & k1 & k2 & i & [<- | Hin] & Hs & Hk & Hi & Hp)].
      * left. left. exact Hj.
      * left. right. rewrite Hstr in Hs. injection Hs as <-.
        rewrite Hhash in Hk. injection Hk as <- <-.
        apply hit_true. eauto.
      * right. exists it, tx, k1, k2, i. auto.
Qed.

Lemma bulk_add_loop_counter (items : list pyobj) : forall self self',
  wf self ->
  bulk_add_loop mmh3_hash64 items self = (Returned tt, self') ->
  counter self' = counter self + Z.of_nat (length items).
Proof.
  induction items as [| item rest IH]; intros self self' Hwf Hrun.
  - injection Hrun as <-. cbn. lia.
  - cbn [bulk_add_loop] in Hrun. unfold bind in Hrun.
    destruct (add_cases mmh3_hash64 item self Hwf)
      as [(text & h1 & h2 & Hstr & Hhash & Hadd)
         | [(text & e & _ & _ & Hexit) | (e & _ & Hexit)]];
      try (rewrite Hexit in Hrun; discriminate).
    rewrite Hadd in Hrun.
    rewrite (IH _ _ (wf_added h1 h2 self Hwf) Hrun).
    replace (counter (added h1 h2 self)) with (counter self + 1)
      by (destruct self; reflexivity).
    cbn [length]. lia.
Qed.

(** X4.  A batch in two parts: when the first part returned, [bulk_add]
    of a concatenation is [bulk_add] of the second part on the state the
    first part left. *)
Theorem bulk_add_app (pre post : list pyobj) (self : BloomFilter) :
  fst (bulk_add mmh3_hash64 pre self) = Returned tt ->
  bulk_add mmh3_hash64 (pre ++ post) self
  = bulk_add mmh3_hash64 post (snd (bulk_add mmh3_hash64 pre self)).
Proof.
  intros Hret. rewrite !bulk_add_unfold in *. cbn [fst snd] in *.
  assert (Hloop : fst (bulk_add_loop mmh3_hash64 pre self) = Returned tt).
  { destruct (fst (bulk_add_loop mmh3_hash64 pre self)) as [[] | e | e];
      cbn in Hret; (reflexivity || discriminate). }
  rewrite (bulk_add_loop_app pre post self Hloop). reflexivity.
Qed.

(** X5.  After a batch that returned, [counter] has grown by the number
    of items of the batch, repeated items included. *)
Theorem bulk_add_counter (items : list pyobj) (self self' : BloomFilter) :
  wf self ->
  bulk_add mmh3_hash64 items self = (Returned tt, self') ->
  counter self' = counter self + Z.of_nat (length items).
Proof.
  rewrite bulk_add_returned. apply bulk_add_loop_counter.
Qed.

(** X6.  After a batch that returned, the bits that are 1 are exactly
    those that were 1 before and the positions of the items of the
    batch. *)
Theorem bulk_add_bits (items : list pyobj) (self self' : BloomFilter) :
  wf self ->
  bulk_add mmh3_hash64 items self = (Returned tt, self') ->
  forall j,
    bloom_bitarray self' !! j = Some true
    <-> bloom_bitarray self !! j = Some true \/ covered mmh3_hash64 items self j.
Proof.
  rewrite bulk_add_returned. apply bulk_add_loop_bits.
Qed.

End Batches.

(** ** Queries after insertions *)

Lemma try_except_never_raises {A : Type} (m : M A) (self : BloomFilter) (e : exn) :
  fst (try_except m self) <> Raised e.
Proof.
  unfold try_except. destruct (m self) as [[a | e' | e'] self1]; cbn; discriminate.
Qed.

Section Answers.

Variable mmh3_hash64 : string -> option (Z * Z).

(** X7.  On a filter that started with no bit set, a query after a batch
    answers true exactly when every position of the queried item is a
    position of some item of the batch: inserted items are found, and a
    false positive is an item all of whose positions the others cover. *)
Theorem contain_true_iff_covered (items : list pyobj) (query : pyobj)
  (self self' : BloomFilter) (k1 k2 : Z) :
  wf self ->
  (forall j, bloom_bitarray self !! j <> Some true) ->
  bulk_add mmh3_hash64 items self = (Returned tt, self') ->
  get_hash mmh3_hash64 query (case_sensitive self) = Returned (k1, k2) ->
  contain mmh3_hash64 query self' = (Returned true, self')
  <-> forall i, (i < Z.to_nat (hash_count self))%nat ->
        covered mmh3_hash64 items self (probe k1 k2 (filter_size self) i).
Proof.
  intros Hwf Hempty Hrun Hhash.
  pose proof (bulk_add_extends mmh3_hash64 items self) as Hext.
  rewrite Hrun in Hext. cbn [snd] in Hext.
  pose proof (extends_wf _ _ Hext Hwf) as Hwf'.
  apply bulk_add_returned in Hrun.
  pose proof (bulk_add_loop_bits mmh3_hash64 items self self' Hwf Hrun) as Hbits.
  destruct Hext as (Hs & Hh & Hc & _ & _).
  rewrite (contain_spec mmh3_hash64 query self' k1 k2 Hwf')
    by (rewrite Hc; exact Hhash).
  rewrite Hh. split.
  - intros Hall i Hi. injection Hall as Hall. rewrite forallb_forall in Hall.
    assert (Hbit : bit_at self' k1 k2 i = true) by (apply Hall, in_seq; lia).
    unfold bit_at in Hbit. rewrite Hs in Hbit.
    destruct (bloom_bitarray self' !! probe k1 k2 (filter_size self) i)
      as [[|] |] eqn:Hj; try discriminate.
    apply Hbits in Hj. destruct Hj as [Hj | Hcov]; [| exact Hcov].
    destruct (Hempty _ Hj).
  - intros Hcov. f_equal. f_equal. apply forallb_forall. intros i Hin.
    apply in_seq in Hin. unfold bit_at. rewrite Hs.
    assert (Hj : bloom_bitarray self' !! probe k1 k2 (filter_size self) i = Some true).
    { apply Hbits. right. apply Hcov. lia. }
    rewrite Hj. reflexivity.
Qed.

(** X8.  After a batch that returned, every item of the batch has a
    text, and is found when asked for by it. *)
Theorem bulk_add_then_contain (items : list pyobj) (item : pyobj)
  (self self' : BloomFilter) :
  wf self ->
  bulk_add mmh3_hash64 items self = (Returned tt, self') ->
  In item items ->
  exists text,
    str item = Returned text
    /\ contain mmh3_hash64 (PyStr text) self' = (Returned true, self').
Proof.
  intros Hwf Hrun Hin.
  pose proof (bulk_add_extends mmh3_hash64 items self) as Hext.
  rewrite Hrun in Hext. cbn [snd] in Hext.
  pose proof (extends_wf _ _ Hext Hwf) as Hwf'.
  apply bulk_add_returned in Hrun.
  pose proof (bulk_add_loop_bits mmh3_hash64 items self self' Hwf Hrun) as Hbits.
  assert (Hhash : exists text h1 h2,
             str item = Returned text
             /\ get_hash mmh3_hash64 (PyStr text) (case_sensitive self)
                = Returned (h1, h2)).
  { clear Hbits Hext Hwf'. revert self Hwf Hrun.
    induction items as [| it rest IH]; intros self Hwf Hrun; [destruct Hin |].
    cbn [bulk_add_loop] in Hrun. unfold bind in Hrun.
    destruct (add_cases mmh3_hash64 it self Hwf)
      as [(text & h1 & h2 & Hs & Hh & Hadd)
         | [(text & e & _ & _ & Hexit) | (e & _ & Hexit)]];
      try (rewrite Hexit in Hrun; discriminate).
    destruct Hin as [-> | Hin]; [eauto |].
    rewrite Hadd in Hrun.
    destruct (IH Hin _ (wf_added h1 h2 self Hwf) Hrun) as (tx & k1 & k2 & Hsk & Hk).
    exists tx, k1, k2. split; [exact Hsk |]. destruct self; exact Hk. }
  destruct Hhash as (text & h1 & h2 & Hstr & Hhash).
  exists text. split; [exact Hstr |].
  destruct Hext as (Hs & Hh & Hc & _ & _).
  rewrite (contain_spec mmh3_hash64 (PyStr text) self' h1 h2 Hwf')
    by (rewrite Hc; exact Hhash).
  f_equal. f_equal. apply forallb_forall. intros i Hi. apply in_seq in Hi.
  unfold bit_at. rewrite Hs.
  assert (Hj : bloom_bitarray self' !! probe h1 h2 (filter_size self) i = Some true).
  { apply Hbits. right. exists item, text, h1, h2, i.
    repeat split; try assumption. lia. }
  rewrite Hj. reflexivity.
Qed.

(** X9.  Whatever was inserted is found under its text: after
    [add(item)] returned, [str(item)] is a text and [contain] of that text
    answers true, at once and after any batch that returned. *)
Theorem contain_text_after_add (item : pyobj) (items : list pyobj)
  (self self1 self2 : BloomFilter) :
  wf self ->
  add mmh3_hash64 item self = (Returned tt, self1) ->
  bulk_add mmh3_hash64 items self1 = (Returned tt, self2) ->
  exists text,
    str item = Returned text
    /\ contain mmh3_hash64 (PyStr text) self1 = (Returned true, self1)
    /\ contain mmh3_hash64 (PyStr text) self2 = (Returned true, self2).
Proof.
  intros Hwf Hadd Hrun. apply bulk_add_returned in Hrun.
  destruct (add_cases mmh3_hash64 item self Hwf)
    as [(text & h1 & h2 & Hstr & _ & _)
       | [(text & e & _ & _ & Hexit) | (e & _ & Hexit)]];
    try (rewrite Hexit in Hadd; discriminate).
  exists text. split; [exact Hstr |].
  apply (contain_after_add mmh3_hash64 item (PyStr text) text items self);
    [exact Hwf | exact Hstr | reflexivity | exact Hadd | exact Hrun].
Qed.

(** X10.  No exception leaves [get_hash], [bulk_add] or [contain]:
    whatever goes wrong inside ends in a handler that logs and exits.
    [add] lets out one thing only: what [str(item)] raises, which happens
    before its [try]. *)
Theorem no_exception_escapes (e : exn) :
  (forall item case, get_hash mmh3_hash64 item case <> Raised e)
  /\ (forall items self, fst (bulk_add mmh3_hash64 items self) <> Raised e)
  /\ (forall item self, fst (contain mmh3_hash64 item self) <> Raised e)
  /\ (forall item self,
        fst (add mmh3_hash64 item self) = Raised e <-> str item = Raised e).
Proof.
  split; [| split; [| split]].
  - intros item case. apply get_hash_never_raises.
  - intros items self. apply try_except_never_raises.
  - intros item self. unfold contain. unfold bind at 1, attr at 1.
    unfold bind at 1, lift at 1.
    destruct (get_hash mmh3_hash64 item (case_sensitive self))
      as [[h1 h2] | e' | e'] eqn:Hhash; cbn [fst].
    + apply try_except_never_raises.
    + destruct (get_hash_never_raises _ _ _ _ Hhash).
    + discriminate.
  - intros item self. apply add_raises_iff.
Qed.

(** X11.  No method resizes or reconfigures the filter: the size, the
    number of hash rounds, the case flag and the length of the bit array
    are after [add] and [bulk_add] what they were before, however the call
    ends. *)
Theorem parameters_never_change (self : BloomFilter) :
  (forall item,
      let self' := snd (add mmh3_hash64 item self) in
      filter_size self' = filter_size self
      /\ hash_count self' = hash_count self
      /\ case_sensitive self' = case_sensitive self
      /\ length (bloom_bitarray self') = length (bloom_bitarray self))
  /\ (forall items,
        let self' := snd (bulk_add mmh3_hash64 items self) in
        filter_size self' = filter_size self
        /\ hash_count self' = hash_count self
        /\ case_sensitive self' = case_sensitive self
        /\ length (bloom_bitarray self') = length (bloom_bitarray self)).
Proof.
  split.
  - intros item self'.
    destruct (add_extends mmh3_hash64 item self) as (? & ? & ? & ? & _). auto.
  - intros items self'.
    destruct (bulk_add_extends mmh3_hash64 items self) as (? & ? & ? & ? & _). auto.
Qed.

End Answers.


(** ** Failures of the planning functions, and construction in the domain *)

Lemma catch_exit_never_raises {A : Type} (o : outcome A) (e : exn) :
  catch_exit o <> Raised e.
Proof. destruct o; discriminate. Qed.

Section Planning.

Local Open Scope R_scope.

Variable plat : Platform.
Hypothesis Hsound : sound plat.

(** A probability that is an infinity or NaN never yields a size. *)
Lemma filter_size_not_finite (items : Z) (q : pyfloat) :
  (forall x, q <> Finite x) ->
  get_filter_size plat items q = SysExit ValueError
  \/ get_filter_size plat items q = SysExit OverflowError.
Proof.
  intros Hq.
  destruct q as [x | [|] |]; [destruct (Hq x); reflexivity | | |].
  - left. reflexivity.
  - rewrite (get_filter_size_after_log plat Hsound _ _ (Infinity false))
      by reflexivity.
    unfold int_to_float. destruct (overflows _); [right; reflexivity |].
    cbn [obind]. unfold float_mul. unfold float_truediv.
    rewrite (denominator_nonzero plat Hsound).
    destruct (is_zero _); cbn [obind]; [left | right]; reflexivity.
  - rewrite (get_filter_size_after_log plat Hsound _ _ NaN) by reflexivity.
    unfold int_to_float. destruct (overflows _); [right; reflexivity |].
    cbn [obind]. unfold float_mul, float_truediv.
    rewrite (denominator_nonzero plat Hsound). left. reflexivity.
Qed.

(** X12.  The two planning functions let no exception reach their caller:
    they return or they log and exit.  [get_filter_size] exits only on a
    [ValueError] or an [OverflowError], and on the [ValueError] of the
    logarithm whenever the probability is not positive.  [get_hash_count]
    exits on the [ZeroDivisionError] when [items] is 0; otherwise it exits
    on an [OverflowError] or returns the rounding of the rounded product
    [(size / items) * log(2)]. *)
Theorem planning_failures (items size : Z) (prob : pyfloat) :
  (forall e,
      get_filter_size plat items prob <> Raised e
      /\ get_hash_count plat items size <> Raised e)
  /\ (forall e,
        get_filter_size plat items prob = SysExit e ->
        e = ValueError \/ e = OverflowError)
  /\ (forall p,
        prob = Finite p -> p <= 0 ->
        get_filter_size plat items prob = SysExit ValueError)
  /\ (items = 0%Z ->
      get_hash_count plat items size = SysExit ZeroDivisionError)
  /\ (items <> 0%Z ->
      get_hash_count plat items size = SysExit OverflowError
      \/ get_hash_count plat items size
         = Returned
             (py_round (fl plat (fl plat (IZR size / IZR items) * log_2 plat)))).
Proof.
  split; [| split; [| split; [| split]]].
  - intros e. split; apply catch_exit_never_raises.
  - intros e He. destruct prob as [p | s |].
    + destruct (Rlt_dec 0 p) as [Hp | Hp].
      * destruct (filter_size_outcome plat Hsound items p Hp) as [H | H];
          rewrite H in He; [| discriminate].
        injection He as <-. right. reflexivity.
      * apply Rnot_lt_le in Hp. unfold get_filter_size in He.
        rewrite (math_log_nonpos plat) in He by exact Hp.
        injection He as <-. left. reflexivity.
    + destruct (filter_size_not_finite items (Infinity s)) as [H | H];
        try discriminate; rewrite H in He; injection He as <-; auto.
    + destruct (filter_size_not_finite items NaN) as [H | H];
        try discriminate; rewrite H in He; injection He as <-; auto.
  - intros p -> Hp. unfold get_filter_size.
    rewrite (math_log_nonpos plat) by exact Hp. reflexivity.
  - intros ->. apply get_hash_count_zero.
  - intros Hn. apply hash_count_outcome. exact Hn.
Qed.

(** X15.  Inside the domain the constructor never logs and exits: for
    [1 <= n <= 2^53] and a binary64 probability [0 < p < 1] both planning
    functions return, the size is at least 1 and the hash count is not
    negative, and the constructor returns the empty filter of that size
    with the arguments stored as given, the counter at 0, unless
    [bitarray] cannot make an array that long. *)
Theorem init_valid (n : Z) (p : R) (case : bool) :
  (0 < n <= 2 ^ 53)%Z ->
  / 2 ^ 1074 <= p <= 1 - / 2 ^ 53 ->
  exists size rounds,
    get_filter_size plat n (Finite p) = Returned size
    /\ get_hash_count plat n size = Returned rounds
    /\ (1 <= size)%Z
    /\ (0 <= rounds)%Z
    /\ __init__ plat n (Finite p) case
       = if (maxsize plat <? size)%Z then Raised OverflowError
         else if (max_bits plat <? size)%Z then Raised MemoryError
         else Returned (mkBloomFilter n (Finite p) case 0 false size rounds
                          (repeat false (Z.to_nat size))).
Proof.
  intros Hn Hp.
  destruct (filter_size_returns plat Hsound n p Hn Hp)
    as (size & Hsize & Hpos & Hbound).
  pose proof (hash_count_returns plat Hsound n size (proj1 Hn) ltac:(lia) Hbound)
    as Hrounds.
  exists size. eexists. split; [exact Hsize |]. split; [exact Hrounds |].
  split; [lia |]. split.
  - destruct (hash_count_nonneg plat Hsound n size (proj1 Hn) ltac:(lia))
      as [Hover | [_ Hge]]; [| exact Hge].
    rewrite Hrounds in Hover. discriminate.
  - pose proof (max_bits_range plat Hsound) as Hmax.
    unfold __init__. rewrite Hsize. cbn [obind]. rewrite Hrounds. cbn [obind].
    unfold bitarray.
    destruct (Z.ltb_spec size (- maxsize plat - 1)%Z); [lia |].
    destruct (maxsize plat <? size)%Z; [reflexivity |]. cbn [orb].
    destruct (Z.ltb_spec size 0%Z); [lia |].
    destruct (max_bits plat <? size)%Z; [reflexivity |].
    cbn [obind]. unfold setall. rewrite repeat_length. reflexivity.
Qed.

End Planning.

(** ** New filters and folded text *)

Lemma lower_char_idempotent (c : ascii) : lower_char (lower_char c) = lower_char c.
Proof.
  destruct c as [[|] [|] [|] [|] [|] [|] [|] [|]]; vm_compute; reflexivity.
Qed.

Lemma lower_idempotent (s : string) : lower (lower s) = lower s.
Proof.
  induction s as [| c s IH]; [reflexivity |].
  cbn [lower]. rewrite lower_char_idempotent, IH. reflexivity.
Qed.

Section NewFilters.

Variable mmh3_hash64 : string -> option (Z * Z).

(** X16.  A filter that was just constructed answers every query the
    same way: false when it has at least one hash round, true when it has
    none. *)
Theorem new_filter_answers (plat : Platform) (n : Z) (p : pyfloat) (case : bool)
  (self : BloomFilter) (item : pyobj) (h1 h2 : Z) :
  sound plat ->
  __init__ plat n p case = Returned self ->
  get_hash mmh3_hash64 item case = Returned (h1, h2) ->
  contain mmh3_hash64 item self = (Returned (hash_count self <=? 0), self).
Proof.
  intros Hsound Hinit Hhash.
  pose proof (init_wf plat n p case self Hsound Hinit) as Hwf.
  destruct (init_inv plat n p case self Hinit)
    as (size & rounds & _ & _ & Hsize & _ & Hself).
  assert (Hcase : case_sensitive self = case) by (rewrite Hself; reflexivity).
  rewrite (contain_spec mmh3_hash64 item self h1 h2 Hwf)
    by (rewrite Hcase; exact Hhash).
  f_equal. f_equal.
  destruct (Z.leb_spec (hash_count self) 0) as [Hle | Hgt].
  - replace (Z.to_nat (hash_count self)) with 0%nat by lia. reflexivity.
  - replace (Z.to_nat (hash_count self))
      with (1 + (Z.to_nat (hash_count self) - 1))%nat by lia.
    apply forallb_seq_first_false. unfold bit_at.
    destruct (bloom_bitarray self !! probe h1 h2 (filter_size self) 0)
      as [[|] |] eqn:Hj; try reflexivity.
    rewrite Hself in Hj. cbn in Hj. destruct (lookup_repeat_false _ _ Hj).
Qed.

(** X17.  With the case flag set, a string and its lower-case form are
    one item: [add] and [contain] do with the one what they do with the
    other. *)
Theorem folded_text_is_same_item (s : string) (self : BloomFilter) :
  case_sensitive self = true ->
  add mmh3_hash64 (PyStr (lower s)) self = add mmh3_hash64 (PyStr s) self
  /\ contain mmh3_hash64 (PyStr (lower s)) self
     = contain mmh3_hash64 (PyStr s) self.
Proof.
  intros Hflag.
  assert (Hsame : get_hash mmh3_hash64 (PyStr (lower s)) (case_sensitive self)
                  = get_hash mmh3_hash64 (PyStr s) (case_sensitive self)).
  { rewrite !get_hash_str, Hflag, lower_idempotent. reflexivity. }
  split.
  - unfold add. unfold bind at 1 4, attr at 1 3. unfold bind at 1 3, lift at 1 3.
    cbn [str]. unfold bind at 1 2, lift at 1 2.
    rewrite Hsame. reflexivity.
  - unfold contain. unfold bind at 1 3, attr at 1 3. unfold bind at 1 3, lift at 1 2.
    rewrite Hsame. reflexivity.
Qed.

End NewFilters.

(** ** The further properties at concrete inputs *)

Lemma add_commutes_witness :
  add stub_hash64 (PyStr "foo") (snd (add stub_hash64 (PyStr "Foo") (fresh false 13 3)))
  = add stub_hash64 (PyStr "Foo") (snd (add stub_hash64 (PyStr "foo") (fresh false 13 3)))
  /\ fst (add stub_hash64 (PyStr "foo")
            (snd (add stub_hash64 (PyStr "Foo") (fresh false 13 3))))
     = Returned tt.
Proof.
  apply (add_commutes stub_hash64 (PyStr "Foo") (PyStr "foo") (fresh false 13 3)).
  - apply wf_fresh. lia.
  - vm_compute. reflexivity.
  - vm_compute. reflexivity.
Defined.

Lemma add_sets_at_most_rounds_witness :
  (ones (bloom_bitarray (fresh false 13 3))
   <= ones (bloom_bitarray (snd (add stub_hash64 (PyStr "Foo") (fresh false 13 3))))
   <= ones (bloom_bitarray (fresh false 13 3))
      + Z.to_nat (hash_count (fresh false 13 3)))%nat.
Proof.
  apply (add_sets_at_most_rounds stub_hash64 (PyStr "Foo") (fresh false 13 3)).
  apply wf_fresh. lia.
Defined.

Lemma add_all_or_nothing_witness :
  (exists text h1 h2,
      str (PyInt 5) = Returned text
      /\ get_hash stub_hash64 (PyStr text) (case_sensitive (fresh false 13 3))
         = Returned (h1, h2)
      /\ add stub_hash64 (PyInt 5) (fresh false 13 3)
         = (Returned tt, added h1 h2 (fresh false 13 3))
      /\ counter (added h1 h2 (fresh false 13 3)) = counter (fresh false 13 3) + 1
      /\ forall i, (i < Z.to_nat (hash_count (fresh false 13 3)))%nat ->
           bloom_bitarray (added h1 h2 (fresh false 13 3))
             !! Z.to_nat ((h1 + Z.of_nat i * h2) mod filter_size (fresh false 13 3))
           = Some true)
  \/ (exists text e,
        str (PyInt 5) = Returned text
        /\ get_hash stub_hash64 (PyStr text) (case_sensitive (fresh false 13 3))
           = SysExit e
        /\ add stub_hash64 (PyInt 5) (fresh false 13 3)
           = (SysExit e, fresh false 13 3))
  \/ (exists e,
        str (PyInt 5) = Raised e
        /\ add stub_hash64 (PyInt 5) (fresh false 13 3)
           = (Raised e, fresh false 13 3)).
Proof.
  apply (add_all_or_nothing stub_hash64 (PyInt 5) (fresh false 13 3)).
  apply wf_fresh. lia.
Defined.

Lemma bulk_add_app_witness :
  bulk_add stub_hash64 ([PyStr "Foo"] ++ [PyStr "foo"]) (fresh false 13 3)
  = bulk_add stub_hash64 [PyStr "foo"]
      (snd (bulk_add stub_hash64 [PyStr "Foo"] (fresh false 13 3))).
Proof.
  apply (bulk_add_app stub_hash64 [PyStr "Foo"] [PyStr "foo"] (fresh false 13 3)).
  vm_compute. reflexivity.
Defined.

Lemma bulk_add_counter_witness :
  counter (snd (bulk_add stub_hash64 [PyStr "Foo"; PyInt 5; PyStr "Foo"]
                  (fresh false 13 3)))
  = counter (fresh false 13 3)
    + Z.of_nat (length [PyStr "Foo"; PyInt 5; PyStr "Foo"]).
Proof.
  apply (bulk_add_counter stub_hash64 [PyStr "Foo"; PyInt 5; PyStr "Foo"]
           (fresh false 13 3)).
  - apply wf_fresh. lia.
  - vm_compute. reflexivity.
Defined.

Lemma bulk_add_bits_witness :
  bloom_bitarray (snd (bulk_add stub_hash64 [PyStr "Foo"; PyInt 5] (fresh false 13 3)))
    !! 7%nat = Some true.
Proof.
  apply (bulk_add_bits stub_hash64 [PyStr "Foo"; PyInt 5] (fresh false 13 3)).
  - apply wf_fresh. lia.
  - vm_compute. reflexivity.
  - right. exists (PyStr "Foo"), "Foo"%string, (-708), 4, 0%nat.
    split; [left; reflexivity |]. split; [reflexivity |].
    split; [vm_compute; reflexivity |].
    split; [vm_compute; lia | vm_compute; reflexivity].
Defined.

Lemma contain_true_iff_covered_witness :
  contain stub_hash64 (PyStr "foo")
    (snd (bulk_add stub_hash64 [PyStr "Foo"; PyInt 5] (fresh false 13 3)))
  = (Returned true,
     snd (bulk_add stub_hash64 [PyStr "Foo"; PyInt 5] (fresh false 13 3)))
  <-> forall i, (i < Z.to_nat (hash_count (fresh false 13 3)))%nat ->
        covered stub_hash64 [PyStr "Foo"; PyInt 5] (fresh false 13 3)
          (probe (-676) 4 (filter_size (fresh false 13 3)) i).
Proof.
  apply (contain_true_iff_covered stub_hash64 [PyStr "Foo"; PyInt 5]
           (PyStr "foo") (fresh false 13 3)).
  - apply wf_fresh. lia.
  - intros j. apply lookup_repeat_false.
  - vm_compute. reflexivity.
  - vm_compute. reflexivity.
Defined.

Lemma bulk_add_then_contain_witness :
  exists text,
    str (PyInt 5) = Returned text
    /\ contain stub_hash64 (PyStr text)
         (snd (bulk_add stub_hash64 [PyStr "Foo"; PyInt 5] (fresh false 13 3)))
       = (Returned true,
          snd (bulk_add stub_hash64 [PyStr "Foo"; PyInt 5] (fresh false 13 3))).
Proof.
  apply (bulk_add_then_contain stub_hash64 [PyStr "Foo"; PyInt 5] (PyInt 5)
           (fresh false 13 3)).
  - apply wf_fresh. lia.
  - vm_compute. reflexivity.
  - right. left. reflexivity.
Defined.

Lemma contain_text_after_add_witness :
  exists text,
    str (PyInt 5) = Returned text
    /\ contain stub_hash64 (PyStr text)
         (snd (add stub_hash64 (PyInt 5) (fresh false 13 3)))
       = (Returned true, snd (add stub_hash64 (PyInt 5) (fresh false 13 3)))
    /\ contain stub_hash64 (PyStr text)
         (snd (bulk_add stub_hash64 [PyStr "Foo"]
                 (snd (add stub_hash64 (PyInt 5) (fresh false 13 3)))))
       = (Returned true,
          snd (bulk_add stub_hash64 [PyStr "Foo"]
                 (snd (add stub_hash64 (PyInt 5) (fresh false 13 3))))).
Proof.
  apply (contain_text_after_add stub_hash64 (PyInt 5) [PyStr "Foo"]
           (fresh false 13 3)).
  - apply wf_fresh. lia.
  - vm_compute. reflexivity.
  - vm_compute. reflexivity.
Defined.

Lemma planning_failures_witness :
  get_filter_size exact 0 (Finite 0) = SysExit ValueError
  /\ get_hash_count exact 0 2 = SysExit ZeroDivisionError
  /\ get_filter_size exact 0 (Finite 0) <> Raised ValueError.
Proof.
  destruct (planning_failures exact exact_sound 0 2 (Finite 0))
    as (Hnever & _ & Hlog & Hzero & _).
  split; [apply (Hlog 0%R); [reflexivity | apply Rle_refl] |].
  split; [apply Hzero; reflexivity | apply Hnever].
Defined.

Lemma init_valid_witness :
  exists size rounds,
    get_filter_size exact 1000 (Finite (1 / 100)) = Returned size
    /\ get_hash_count exact 1000 size = Returned rounds
    /\ 1 <= size
    /\ 0 <= rounds
    /\ __init__ exact 1000 (Finite (1 / 100)) false
       = if maxsize exact <? size then Raised OverflowError
         else if max_bits exact <? size then Raised MemoryError
         else Returned (mkBloomFilter 1000 (Finite (1 / 100)) false 0 false
                          size rounds (repeat false (Z.to_nat size))).
Proof.
  apply (init_valid exact exact_sound 1000 (1 / 100) false).
  - lia.
  - pose proof inv_pow53_small. pose proof inv_pow1074_small. lra.
Defined.

Lemma new_filter_answers_witness :
  contain stub_hash64 (PyStr "Foo")
    (mkBloomFilter 1 (Finite (1 / 2)) false 0 false 2 1 [false; false])
  = (Returned
       (hash_count (mkBloomFilter 1 (Finite (1 / 2)) false 0 false 2 1 [false; false])
        <=? 0),
     mkBloomFilter 1 (Finite (1 / 2)) false 0 false 2 1 [false; false]).
Proof.
  apply (new_filter_answers stub_hash64 exact 1 (Finite (1 / 2)) false _
           (PyStr "Foo") (-708) 4).
  - exact exact_sound.
  - apply init_one_half.
  - vm_compute. reflexivity.
Defined.

Lemma folded_text_is_same_item_witness :
  add stub_hash64 (PyStr (lower "Foo")) (fresh true 13 3)
  = add stub_hash64 (PyStr "Foo") (fresh true 13 3)
  /\ contain stub_hash64 (PyStr (lower "Foo")) (fresh true 13 3)
     = contain stub_hash64 (PyStr "Foo") (fresh true 13 3).
Proof.
  apply (folded_text_is_same_item stub_hash64 "Foo" (fresh true 13 3)).
  reflexivity.
Defined.
